(** * Cleanup cog: message collection, confirmation gate and subcommands

    A shallow embedding of [redbot/cogs/cleanup/cleanup.py].

    Coroutines are modelled as values of a small trace/result monad [Cmd]:
    running a command yields the list of externally visible steps it
    performed (messages sent, history pages requested, messages inspected,
    deletions handed to the executor, ...) and how it ended (a value, an
    exception, or suspended for ever inside [wait_for]).

    The chat library (discord.py) and the Python builtins are external to
    the cog.  What the cog reads from them is gathered in the record [Env];
    [channel.history] is kept as a parameter of the collector and is also
    given as a concrete model over a stored list of messages. *)

From Stdlib Require Import ZArith List String Ascii Bool Lia.
From Stdlib Require Import Sorted.
Import ListNotations.

Local Open Scope Z_scope.

(** ** Strings, as the builtins the cog calls *)

Module Str.

(** [s.startswith(p)] *)
Definition startswith (s p : string) : bool := String.prefix p s.

(** [sub in s] *)
Fixpoint contains (sub s : string) : bool :=
  String.prefix sub s ||
  match s with
  | EmptyString => false
  | String _ s' => contains sub s'
  end.

Definition lower_ascii (c : ascii) : ascii :=
  let n := nat_of_ascii c in
  if (Nat.leb 65 n && Nat.leb n 90)%bool then ascii_of_nat (n + 32) else c.

(** [s.lower()], on the ASCII letters. *)
Fixpoint lower (s : string) : string :=
  match s with
  | EmptyString => EmptyString
  | String c s' => String (lower_ascii c) (lower s')
  end.

(** [s[n:]] *)
Fixpoint drop (n : nat) (s : string) : string :=
  match n, s with
  | O, _ => s
  | S _, EmptyString => EmptyString
  | S n', String _ s' => drop n' s'
  end.

(** [s.split(' ')[0]]: the text before the first space. *)
Fixpoint first_word (s : string) : string :=
  match s with
  | EmptyString => EmptyString
  | String c s' => if Ascii.eqb c " " then EmptyString else String c (first_word s')
  end.

(** [s.endswith(p)] *)
Fixpoint endswith (s p : string) : bool :=
  String.eqb s p ||
  match s with
  | EmptyString => false
  | String _ s' => endswith s' p
  end.

(** Truthiness of a string: non-empty. *)
Definition truthy (s : string) : bool :=
  match s with EmptyString => false | String _ _ => true end.

End Str.

(** ** Data model *)

Record User := mkUser {
  user_id : Z;
  user_name : string;
  user_bot : bool      (* [user.bot]: a bot account *)
}.

(** [created_at] is a timestamp in microseconds, the resolution of
    [datetime]. *)
Record Message := mkMessage {
  message_id : Z;
  author : User;
  content : string;
  created_at : Z
}.

(** [a == b] on users compares ids. *)
Definition user_eq (a b : User) : bool := user_id a =? user_id b.

(** [m == ctx.message]: the same message, identified by its id. *)
Definition message_eq (a b : Message) : bool := message_id a =? message_id b.

Definition microseconds_per_day : Z := 86400000000.

(** [(a - b).days]: [timedelta] normalises seconds and microseconds to be
    non-negative, so [days] is the floor of the quotient. *)
Definition days_between (a b : Z) : Z := (a - b) / microseconds_per_day.

Record Context := mkContext {
  ctx_message : Message;         (* the triggering command message *)
  channel_name : string;
  author_is_member : bool;       (* [type(author) is discord.Member] *)
  me_manage_messages : bool      (* [channel.permissions_for(guild.me).manage_messages] *)
}.

(** [ctx.author] *)
Definition ctx_author (ctx : Context) : User := author (ctx_message ctx).

(** ** Steps, results and the command monad *)

Inductive Text :=
| ConfirmPrompt (number : Z)   (* 'Are you sure you want to delete {} messages? (y/n)' *)
| Cancelled                    (* 'Cancelled.' *)
| BotAccountOnly               (* 'This command can only be used on bots with bot accounts.' *)
| MessageNotFound.             (* 'Message not found.' *)

Inductive Event :=
| Send (t : Text)
| WaitFor (timeout : option nat)
| History (limit : option nat) (before after : option Message)
| Inspect (m : Message)
| GetMessage (id : Z)
| LogInfo (actor : User) (count : Z)
| MassPurge (batch : list Message)
| SlowDeletion (batch : list Message).

Inductive Exn :=
| BadArgument
| UnboundLocalError (name : string)
| NotFound
| TimeoutError
| ReError.

Inductive Result (A : Type) :=
| Done (a : A)
| Raised (e : Exn)
| Waiting.            (* suspended and never resumed *)
Arguments Done {A} a.
Arguments Raised {A} e.
Arguments Waiting {A}.

Definition Cmd (A : Type) : Type := (list Event * Result A)%type.

Definition ret {A} (a : A) : Cmd A := ([], Done a).

Definition bind {A B} (c : Cmd A) (k : A -> Cmd B) : Cmd B :=
  match c with
  | (tr, Done a) => let (tr', r) := k a in (tr ++ tr', r)
  | (tr, Raised e) => (tr, Raised e)
  | (tr, Waiting) => (tr, Waiting)
  end.

Definition emit (e : Event) : Cmd unit := ([e], Done tt).
Definition raise {A} (e : Exn) : Cmd A := ([], Raised e).

Definition trace {A} (c : Cmd A) : list Event := fst c.
Definition result {A} (c : Cmd A) : Result A := snd c.

Declare Scope cmd_scope.
Delimit Scope cmd_scope with cmd.
Notation "x <- c ;; k" := (bind c (fun x => k))
  (at level 61, c at next level, right associativity) : cmd_scope.
Notation "c ;; k" := (bind c (fun _ => k))
  (at level 61, right associativity) : cmd_scope.
Local Open Scope cmd_scope.

(** ** [Cleanup.get_messages_for_deletion] *)

Record Scan := mkScan {
  to_delete : list Message;
  too_old : bool;
  message : option Message;     (* the loop variable [message] *)
  steps : list Event            (* pages requested and messages inspected, in order *)
}.

Definition len (l : list Message) : Z := Z.of_nat (List.length l).

Section Collector.

(** [channel.history(limit=, before=, after=)], the messages one call
    yields, in the order it yields them. *)
Variable history : option nat -> option Message -> option Message -> list Message.

Variable ctx : Context.
Variable number : Z.
Variable check : Message -> bool.
Variable limit : option nat.
Variable after : option Message.

Definition age_days (m : Message) : Z :=
  days_between (created_at (ctx_message ctx)) (created_at m).

(** The body of [async for message in channel.history(...)], from the
    message [m] on.  A [break] returns the state as it is. *)
Fixpoint scan_page (page : list Message) (st : Scan) : Scan :=
  match page with
  | [] => st
  | m :: rest =>
      let td := to_delete st in
      let seen := steps st ++ [Inspect m] in
      if ((number =? 0) || (len td - 1 <? number)) && check m && (age_days m <? 14)
      then scan_page rest (mkScan (td ++ [m]) (too_old st) (Some m) seen)
      else if age_days m >=? 14
      then mkScan td true (Some m) seen
      else if negb (number =? 0) && (len td >=? number)
      then mkScan td (too_old st) (Some m) seen
      else scan_page rest (mkScan td (too_old st) (Some m) seen)
  end.

(** The [while] loop; [fuel] bounds the number of pages requested. *)
Fixpoint collect (fuel : nat) (before : option Message) (st : Scan) : option Scan :=
  if negb (too_old st) && (len (to_delete st) - 1 <? number) then
    match fuel with
    | O => None
    | S fuel' =>
        let st0 := mkScan (to_delete st) (too_old st) None
                          (steps st ++ [History limit before after]) in
        let st1 := scan_page (history limit before after) st0 in
        match message st1 with
        | None => Some st1
        | Some m => collect fuel' (Some m) st1
        end
    end
  else Some st.

Definition initial : Scan := mkScan [] false None [].

End Collector.

(** ** A channel as a stored list of messages *)

(** The messages of a channel, newest first.  A page holds the messages
    strictly older than [before] and strictly newer than [after], at most
    [limit] of them; as in discord.py it runs from the oldest one on when
    [after] is given, and from the newest one on otherwise. *)
Definition Channel := list Message.

Definition in_range (before after : option Message) (m : Message) : bool :=
  match before with Some b => message_id m <? message_id b | None => true end &&
  match after with Some a => message_id a <? message_id m | None => true end.

Definition channel_history (ch : Channel)
    (limit : option nat) (before after : option Message) : list Message :=
  let eligible := filter (in_range before after) ch in
  let ordered := match after with Some _ => rev eligible | None => eligible end in
  match limit with Some n => firstn n ordered | None => ordered end.

(** The collector on a stored channel: the batch and the steps taken. *)
Definition get_messages_for_deletion (ch : Channel) (ctx : Context) (number : Z)
    (check : Message -> bool) (limit : option nat) (before after : option Message)
    : list Message * list Event :=
  match collect (channel_history ch) ctx number check limit after
                (S (List.length ch)) before initial with
  | Some st => (to_delete st, steps st)
  | None => ([], [])
  end.

(** ** The environment of a command *)

(** What the cog reads from the chat library and from the builtins. *)
Record Env := mkEnv {
  bot_user : User;                                (* [self.bot.user] *)
  channel : Channel;                              (* the messages of [ctx.channel] *)
  incoming : list (nat * Message);                (* messages arriving after the command
                                                     started: seconds elapsed, message *)
  convert_member : string -> option User;         (* [MemberConverter().convert]; [None]: BadArgument *)
  int_of_str : string -> option Z;                (* [int(user)]; [None]: ValueError *)
  get_prefix : string + list string;              (* [bot.get_prefix(ctx.message)] *)
  get_command : string -> bool;                   (* [bool(bot.get_command(name))] *)
  get_message : Z -> Result (option Message);     (* [channel.get_message(id)] *)
  re_compile : string -> option (string -> bool)  (* [re.compile(p)], then [bool(p.match(c))];
                                                     [None]: re.error *)
}.

Definition send (t : Text) : Cmd unit := emit (Send t).
Definition mass_purge (batch : list Message) : Cmd unit := emit (MassPurge batch).
Definition slow_deletion (batch : list Message) : Cmd unit := emit (SlowDeletion batch).
Definition log_info (actor : User) (count : Z) : Cmd unit := emit (LogInfo actor count).

(** [bot.wait_for('message', check=, timeout=)]: resumes with the first
    arriving message that passes [check]; with a timeout it raises
    [TimeoutError] when none arrives in time, without one it waits. *)
Definition wait_for (w : Env) (check : Message -> bool) (timeout : option nat)
    : Cmd Message :=
  emit (WaitFor timeout) ;;
  match find (fun a => check (snd a)) (incoming w), timeout with
  | Some (_, m), None => ret m
  | Some (t, m), Some secs => if Nat.leb t secs then ret m else raise TimeoutError
  | None, Some _ => raise TimeoutError
  | None, None => ([], Waiting)
  end.

(** ** [Cleanup.check_100_plus] *)

Definition author_check (ctx : Context) (m : Message) : bool :=
  user_eq (author m) (ctx_author ctx).

Definition check_100_plus (w : Env) (ctx : Context) (number : Z) : Cmd bool :=
  send (ConfirmPrompt number) ;;
  response <- wait_for w (author_check ctx) None ;;
  if Str.startswith (Str.lower (content response)) "y" then ret true
  else send Cancelled ;; ret false.

(** The idiom opening every bounded subcommand:
    [if number > 100: cont = await check_100_plus(...); if not cont: return]. *)
Definition confirmed_then (w : Env) (ctx : Context) (number : Z) (rest : Cmd unit)
    : Cmd unit :=
  if number >? 100 then
    cont <- check_100_plus w ctx number ;;
    if negb cont then ret tt else rest
  else rest.

(** [await self.get_messages_for_deletion(ctx, channel, ...)] *)
Definition collect_messages (w : Env) (ctx : Context) (number : Z)
    (check : Message -> bool) (limit : option nat) (before after : option Message)
    : Cmd (list Message) :=
  let (batch, tr) :=
    get_messages_for_deletion (channel w) ctx number check limit before after in
  (tr, Done batch).

(** ** The subcommands *)

Definition text_check (ctx : Context) (text : string) (m : Message) : bool :=
  if Str.contains text (content m) then true
  else if message_eq m (ctx_message ctx) then true
  else false.

(** What [text] does once the count is confirmed. *)
Definition text_pipeline (w : Env) (ctx : Context) (text : string) (number : Z)
    : Cmd unit :=
  let is_bot := user_bot (bot_user w) in
  to_delete <- collect_messages w ctx number (text_check ctx text)
                 (Some 1000%nat) (Some (ctx_message ctx)) None ;;
  log_info (ctx_author ctx) (len to_delete) ;;
  if is_bot then mass_purge to_delete else slow_deletion to_delete.

Definition text (w : Env) (ctx : Context) (text : string) (number : Z) : Cmd unit :=
  confirmed_then w ctx number (text_pipeline w ctx text number).

Definition user_check (ctx : Context) (_id : Z) (m : Message) : bool :=
  if user_id (author m) =? _id then true
  else if message_eq m (ctx_message ctx) then true
  else false.

(** The [try]/[except]/[else] that opens [user]: the local [member] is
    bound only when the converter succeeds. *)
Definition resolve_user (w : Env) (user : string) : Cmd (option User * Z) :=
  match convert_member w user with
  | Some member => ret (Some member, user_id member)
  | None =>
      match int_of_str w user with
      | Some _id => ret (None, _id)
      | None => raise BadArgument
      end
  end.

(** Reading a local variable: unbound, it raises. *)
Definition read_local {A} (name : string) (v : option A) : Cmd A :=
  match v with
  | Some a => ret a
  | None => raise (UnboundLocalError name)
  end.

Definition user_pipeline (w : Env) (ctx : Context) (member : option User) (_id : Z)
    (number : Z) : Cmd unit :=
  let is_bot := user_bot (bot_user w) in
  to_delete <- collect_messages w ctx number (user_check ctx _id)
                 (Some 1000%nat) (Some (ctx_message ctx)) None ;;
  _ <- read_local "member" member ;;      (* [member or '???'] *)
  log_info (ctx_author ctx) (len to_delete) ;;
  if is_bot then mass_purge to_delete else slow_deletion to_delete.

Definition user (w : Env) (ctx : Context) (user : string) (number : Z) : Cmd unit :=
  bound <- resolve_user w user ;;
  confirmed_then w ctx number (user_pipeline w ctx (fst bound) (snd bound) number).

Definition after (w : Env) (ctx : Context) (message_id : Z) : Cmd unit :=
  let is_bot := user_bot (bot_user w) in
  if negb is_bot then send BotAccountOnly
  else
    found <- (emit (GetMessage message_id) ;; ([], get_message w message_id)) ;;
    match found with
    | None => send MessageNotFound
    | Some after =>
        to_delete <- collect_messages w ctx 0 (fun _ => true) None None (Some after) ;;
        log_info (ctx_author ctx) (len to_delete) ;;
        mass_purge to_delete
    end.

Definition messages_pipeline (w : Env) (ctx : Context) (number : Z) : Cmd unit :=
  let is_bot := user_bot (bot_user w) in
  to_delete <- collect_messages w ctx number (fun _ => true)
                 (Some 1000%nat) (Some (ctx_message ctx)) None ;;
  log_info (ctx_author ctx) number ;;
  if is_bot then mass_purge to_delete else slow_deletion to_delete.

Definition messages (w : Env) (ctx : Context) (number : Z) : Cmd unit :=
  confirmed_then w ctx number (messages_pipeline w ctx number).

(** [prefixes.remove('')]: drops the first occurrence. *)
Fixpoint list_remove (x : string) (l : list string) : list string :=
  match l with
  | [] => []
  | y :: l' => if String.eqb y x then l' else y :: list_remove x l'
  end.

(** The prefix list [cleanup_bot] works with. *)
Definition command_prefixes (w : Env) : list string :=
  let prefixes := match get_prefix w with inl p => [p] | inr l => l end in
  if existsb (String.eqb "") prefixes then list_remove "" prefixes else prefixes.

(** [discord.utils.find(m.content.startswith, prefixes)] *)
Definition find_prefix (prefixes : list string) (c : string) : option string :=
  find (Str.startswith c) prefixes.

(** [m.content[len(p):].split(' ')[0]] *)
Definition command_name (p c : string) : string :=
  Str.first_word (Str.drop (String.length p) c).

Definition bot_check (w : Env) (ctx : Context) (prefixes : list string) (m : Message)
    : bool :=
  if user_id (author m) =? user_id (bot_user w) then true
  else if message_eq m (ctx_message ctx) then true
  else
    match find_prefix prefixes (content m) with
    | Some p =>
        if Str.truthy p && (0 <? Z.of_nat (String.length p))
        then get_command w (command_name p (content m))
        else false
    | None => false
    end.

Definition bot_pipeline (w : Env) (ctx : Context) (number : Z) : Cmd unit :=
  let is_bot := user_bot (bot_user w) in
  let prefixes := command_prefixes w in
  to_delete <- collect_messages w ctx number (bot_check w ctx prefixes)
                 (Some 1000%nat) (Some (ctx_message ctx)) None ;;
  log_info (ctx_author ctx) (len to_delete) ;;
  if is_bot then mass_purge to_delete else slow_deletion to_delete.

Definition cleanup_bot (w : Env) (ctx : Context) (number : Z) : Cmd unit :=
  confirmed_then w ctx number (bot_pipeline w ctx number).

(** [use_re]: the pattern is given, non-empty, and has the shape [r(...)]. *)
Definition use_re (match_pattern : option string) : bool :=
  match match_pattern with
  | Some p => Str.truthy p && Str.startswith p "r(" && Str.endswith p ")"
  | None => false
  end.

(** The [content_match] closure [cleanup_self] selects. *)
Definition content_match (w : Env) (match_pattern : option string)
    : Cmd (string -> bool) :=
  match match_pattern with
  | Some p =>
      if use_re match_pattern then
        match re_compile w (Str.drop 1 p) with
        | Some matcher => ret matcher
        | None => raise ReError
        end
      else if Str.truthy p then ret (fun c => Str.contains p c)
      else ret (fun _ => true)
  | None => ret (fun _ => true)
  end.

Definition self_check (w : Env) (matches : string -> bool) (m : Message) : bool :=
  if negb (user_id (author m) =? user_id (bot_user w)) then false
  else if matches (content m) then true
  else false.

Definition self_pipeline (w : Env) (ctx : Context) (number : Z)
    (match_pattern : option string) : Cmd unit :=
  let author := author (ctx_message ctx) in
  let is_bot := user_bot (bot_user w) in
  let can_mass_purge :=
    if author_is_member ctx then me_manage_messages ctx else false in
  matches <- content_match w match_pattern ;;
  collected <- collect_messages w ctx number (self_check w matches)
                 (Some 1000%nat) (Some (ctx_message ctx)) None ;;
  let to_delete :=
    if user_eq author (bot_user w) then collected ++ [ctx_message ctx]
    else collected in
  log_info author (len to_delete) ;;
  if is_bot && can_mass_purge then mass_purge to_delete else slow_deletion to_delete.

Definition cleanup_self (w : Env) (ctx : Context) (number : Z)
    (match_pattern : option string) : Cmd unit :=
  confirmed_then w ctx number (self_pipeline w ctx number match_pattern).

(** ** The bounded subcommands, as one family *)

Inductive Bounded :=
| CleanupText (text : string)
| CleanupUser (user : string)
| CleanupMessages
| CleanupBot
| CleanupSelf (match_pattern : option string).

Definition run_bounded (w : Env) (ctx : Context) (c : Bounded) (number : Z) : Cmd unit :=
  match c with
  | CleanupText t => text w ctx t number
  | CleanupUser u => user w ctx u number
  | CleanupMessages => messages w ctx number
  | CleanupBot => cleanup_bot w ctx number
  | CleanupSelf p => cleanup_self w ctx number p
  end.

(** The subcommand with its confirmation step left out. *)
Definition pipeline (w : Env) (ctx : Context) (c : Bounded) (number : Z) : Cmd unit :=
  match c with
  | CleanupText t => text_pipeline w ctx t number
  | CleanupUser u =>
      bound <- resolve_user w u ;;
      user_pipeline w ctx (fst bound) (snd bound) number
  | CleanupMessages => messages_pipeline w ctx number
  | CleanupBot => bot_pipeline w ctx number
  | CleanupSelf p => self_pipeline w ctx number p
  end.

(** The arguments a subcommand converts by itself are accepted: [user]
    resolves its argument to a member or to an integer. *)
Definition arguments_ok (w : Env) (c : Bounded) : bool :=
  match c with
  | CleanupUser u =>
      match convert_member w u, int_of_str w u with
      | None, None => false
      | _, _ => true
      end
  | _ => true
  end.

(** ** Notions the properties are stated with *)

(** A message may enter the batch: it passes the check and is younger
    than fourteen days. *)
Definition eligible (ctx : Context) (check : Message -> bool) (m : Message) : Prop :=
  check m = true /\ age_days ctx m < 14.

(** No inspected message of the steps has reached the window. *)
Definition within_window (ctx : Context) (tr : list Event) : Prop :=
  forall m, In (Inspect m) tr -> age_days ctx m < 14.

(** The steps of a scan: while [too_old] is unset nothing over age was
    inspected; once set, the over-age message is the last step. *)
Definition window_inv (ctx : Context) (st : Scan) : Prop :=
  if too_old st then
    exists pre m,
      steps st = pre ++ [Inspect m] /\ 14 <= age_days ctx m /\ within_window ctx pre
  else within_window ctx (steps st).

(** Messages of the channel a page before [before] can still yield. *)
Definition remaining (ch : Channel) (before : option Message) : nat :=
  List.length (filter (in_range before None) ch).

Definition is_scan_step (e : Event) : bool :=
  match e with
  | History _ _ _ | Inspect _ => true
  | _ => false
  end.

Definition is_prompt (e : Event) : bool :=
  match e with
  | Send (ConfirmPrompt _) | WaitFor _ => true
  | _ => false
  end.

Definition is_deletion (e : Event) : bool :=
  match e with
  | MassPurge _ | SlowDeletion _ => true
  | _ => false
  end.

(** The batch was handed to the deletion executor. *)
Definition handed_over (tr : list Event) (batch : list Message) : Prop :=
  In (MassPurge batch) tr \/ In (SlowDeletion batch) tr.

(** The first message the invoking author sends after the command. *)
Definition first_response (w : Env) (ctx : Context) : option (nat * Message) :=
  find (fun a => author_check ctx (snd a)) (incoming w).

(** The content starts with the letter y, in either case. *)
Definition starts_with_y (s : string) : Prop :=
  exists rest, s = String "y" rest \/ s = String "Y" rest.

(** Every prefix is at least as long as the ones listed after it. *)
Definition longest_first (l : list string) : Prop :=
  forall l1 p l2 q,
    l = l1 ++ p :: l2 -> In q l2 -> (String.length q <= String.length p)%nat.

(** ** Sample data

    A small guild used to run the definitions on concrete inputs. *)

Module Sample.

Definition day (n : Z) : Z := n * microseconds_per_day.

Definition moderator : User := mkUser 7 "mod" false.
Definition red : User := mkUser 1 "Red" true.

(** The command message, sent on day 30. *)
Definition trigger : Message :=
  mkMessage 100 moderator "!cleanup messages 1" (day 30).

Definition ctx : Context := mkContext trigger "general" true true.

(** A message that is [age] days old when the command is sent. *)
Definition aged (id : Z) (who : User) (c : string) (age : Z) : Message :=
  mkMessage id who c (day (30 - age)).

Definition newest : Message := aged 12 moderator "later" 1.
Definition older : Message := aged 11 moderator "earlier" 2.

(** Two recent messages, newest first. *)
Definition recent : Channel := [newest; older].

(** Messages aged 1, 2, 3, 15 and 20 days; the first, third, fourth and
    fifth contain the letter x. *)
Definition day1 : Message := aged 25 moderator "x one" 1.
Definition day2 : Message := aged 24 moderator "two" 2.
Definition day3 : Message := aged 23 moderator "x three" 3.
Definition day15 : Message := aged 22 moderator "x fifteen" 15.
Definition day20 : Message := aged 21 moderator "x twenty" 20.
Definition aging : Channel := [day1; day2; day3; day15; day20].

(** A busy channel: 1001 messages of the day before, newest first, and a
    command message sent after all of them. *)
Definition busy : Channel :=
  map (fun i => aged (Z.of_nat i) moderator "m" 1) (rev (seq 1 1001)).

Definition late_trigger : Message :=
  mkMessage 5000 moderator "!cleanup messages 0" (day 30).

Definition late_ctx : Context := mkContext late_trigger "general" true true.

(** A message the moderator sends after the command. *)
Definition reply (c : string) : Message := mkMessage 101 moderator c (day 30).

(** A message somebody else sends after the command. *)
Definition chatter (c : string) : Message := mkMessage 102 red c (day 30).

(** A user account that runs the bot on itself. *)
Definition selfbot : User := mkUser 9 "self" false.

(** The pattern made of a, a double quote and b, and a command message of
    the self-bot that passes it with a backslash before the quote, the way
    the command parser wants a quote written. *)
Definition quoted : string := String "a" (String "034" (String "b" EmptyString)).

Definition self_trigger : Message :=
  mkMessage 200 selfbot
    ("!cleanup self 1 a" ++ String "092" (String "034" (String "b" EmptyString)))
    (day 30).

Definition self_ctx : Context := mkContext self_trigger "general" true true.

Fixpoint digits (acc : Z) (s : string) : option Z :=
  match s with
  | EmptyString => Some acc
  | String c s' =>
      let n := nat_of_ascii c in
      if (Nat.leb 48 n && Nat.leb n 57)%bool
      then digits (10 * acc + Z.of_nat (n - 48)) s'
      else None
  end.

(** [int] on plain digit strings. *)
Definition decimal (s : string) : option Z :=
  match s with
  | EmptyString => None
  | _ => digits 0 s
  end.

(** A guild with the prefix [!], no members to resolve, no registered
    command and no regular expression accepted. *)
Definition env (bot : User) (ch : Channel) (arrivals : list (nat * Message)) : Env :=
  mkEnv bot ch arrivals (fun _ => None) decimal (inr ["!"%string])
        (fun _ => false) (fun _ => Raised NotFound) (fun _ => None).

End Sample.

(** ** Further notions for the collector and the commands *)

(** The longest prefix of [l] whose elements pass [p]. *)
Fixpoint take_while {A : Type} (p : A -> bool) (l : list A) : list A :=
  match l with
  | [] => []
  | x :: l' => if p x then x :: take_while p l' else []
  end.

(** Younger than fourteen days when the command is sent. *)
Definition young (ctx : Context) (m : Message) : bool := age_days ctx m <? 14.

(** The stored messages run from the newest id to the oldest, with no id
    twice. *)
Definition newest_first (ch : Channel) : Prop :=
  StronglySorted (fun a b => message_id b < message_id a) ch.

(** One pass over the messages [rest], oldest last, for a positive count:
    a message that passes the check and is young joins the batch while the
    batch holds at most [number] messages; the pass ends at the first
    message that is not young, or when the batch holds [number + 1]. *)
Fixpoint sweep (ctx : Context) (number : Z) (check : Message -> bool)
    (td rest : list Message) : list Message :=
  match rest with
  | [] => td
  | m :: rest' =>
      if len td - 1 <? number then
        if check m && young ctx m then sweep ctx number check (td ++ [m]) rest'
        else if young ctx m then sweep ctx number check td rest'
        else td
      else td
  end.

Definition is_history (e : Event) : bool :=
  match e with
  | History _ _ _ => true
  | _ => false
  end.

(** The number of pages requested during the steps [tr]. *)
Definition page_requests (tr : list Event) : nat :=
  List.length (filter is_history tr).

(** The environment with other arriving messages. *)
Definition set_incoming (w : Env) (arrivals : list (nat * Message)) : Env :=
  mkEnv (bot_user w) (channel w) arrivals (convert_member w) (int_of_str w)
        (get_prefix w) (get_command w) (get_message w) (re_compile w).

(** The deletion strategy a bounded subcommand selects. *)
Definition uses_bulk (w : Env) (ctx : Context) (c : Bounded) : bool :=
  user_bot (bot_user w) &&
  match c with
  | CleanupSelf _ => if author_is_member ctx then me_manage_messages ctx else false
  | _ => true
  end.

Definition is_log (e : Event) : bool :=
  match e with
  | LogInfo _ _ => true
  | _ => false
  end.

(** The check a bounded subcommand collects with. *)
Definition command_check (w : Env) (ctx : Context) (c : Bounded)
    : Cmd (Message -> bool) :=
  match c with
  | CleanupText t => ret (text_check ctx t)
  | CleanupUser u => bound <- resolve_user w u ;; ret (user_check ctx (snd bound))
  | CleanupMessages => ret (fun _ => true)
  | CleanupBot => ret (bot_check w ctx (command_prefixes w))
  | CleanupSelf p => matches <- content_match w p ;; ret (self_check w matches)
  end.

(** [user] was given an id that the converter does not resolve. *)
Definition member_unbound (w : Env) (c : Bounded) : bool :=
  match c with
  | CleanupUser u =>
      match convert_member w u with Some _ => false | None => true end
  | _ => false
  end.

(** The batch a bounded subcommand hands over, from what it collected. *)
Definition handed_batch (w : Env) (ctx : Context) (c : Bounded)
    (collected : list Message) : list Message :=
  match c with
  | CleanupSelf _ =>
      if user_eq (author (ctx_message ctx)) (bot_user w)
      then collected ++ [ctx_message ctx] else collected
  | _ => collected
  end.

(** The count a bounded subcommand writes to the log. *)
Definition logged_count (c : Bounded) (number : Z) (batch : list Message) : Z :=
  match c with
  | CleanupMessages => number
  | _ => len batch
  end.

(** ** [setup.py]: the instance manager

    The console is a list of the lines the user will type; the config
    file is the dictionary it holds, or nothing when it does not exist.
    [confirm] (from [redbot.core.cli]) is the answer the user gives. *)

Module Setup.

Inductive Error :=
| EOFError                 (* [input()] with nothing left to read *)
| NameError (name : string)
| KeyError (key : string).

Inductive Outcome (A : Type) :=
| Returned (a : A)
| Exited (code : Z)        (* [sys.exit(code)] *)
| Failed (e : Error).
Arguments Returned {A} a.
Arguments Exited {A} code.
Arguments Failed {A} e.

(** [storage_dict = {1: "JSON", 2: "MongoDB"}] *)
Definition storage_dict (n : Z) : option string :=
  if n =? 1 then Some "JSON"%string
  else if n =? 2 then Some "MongoDB"%string
  else None.

(** [get_storage_type()]: the choice, and the lines left on the console.
    [int] is the builtin; [None] stands for its ValueError. *)
Fixpoint get_storage_type (int : string -> option Z) (inputs : list string)
    : Outcome Z * list string :=
  match inputs with
  | [] => (Failed EOFError, [])
  | line :: rest =>
      match int line with
      | None => get_storage_type int rest
      | Some storage =>
          match storage_dict storage with
          | None => get_storage_type int rest
          | Some _ => (Returned storage, rest)
          end
      end
  end.

(** [get_name()] *)
Fixpoint get_name (inputs : list string) : Outcome string * list string :=
  match inputs with
  | [] => (Failed EOFError, [])
  | line :: rest =>
      let name := if Str.contains " " line then EmptyString else line in
      if Nat.eqb (String.length name) 0 then get_name rest
      else (Returned name, rest)
  end.

Section Config.

(** The data kept for an instance, with the two entries the manager
    reads and the empty dictionary. *)
Variable Data : Type.
Variable storage_type : Data -> option string.   (* [data["STORAGE_TYPE"]] *)
Variable data_path : Data -> option string.      (* [data["DATA_PATH"]] *)
Variable no_data : Data.                         (* [{}] *)

(** The config file as a dictionary: names in insertion order. *)
Definition Config := list (string * Data).

(** [config.get(name)] *)
Fixpoint lookup (name : string) (config : Config) : option Data :=
  match config with
  | [] => None
  | (k, v) :: config' => if String.eqb k name then Some v else lookup name config'
  end.

(** [name in config] *)
Definition has (name : string) (config : Config) : bool :=
  match lookup name config with Some _ => true | None => false end.

(** [config[name] = data] *)
Fixpoint assign (name : string) (data : Data) (config : Config) : Config :=
  match config with
  | [] => [(name, data)]
  | (k, v) :: config' =>
      if String.eqb k name then (k, data) :: config'
      else (k, v) :: assign name data config'
  end.

(** [config.pop(name)] *)
Fixpoint pop (name : string) (config : Config) : Config :=
  match config with
  | [] => []
  | (k, v) :: config' =>
      if String.eqb k name then config' else (k, v) :: pop name config'
  end.

(** A dictionary holds a name once. *)
Definition well_formed (config : Config) : Prop := NoDup (map fst config).

(** [load_existing_config()] *)
Definition load_existing_config (file : option Config) : Config :=
  match file with
  | None => []
  | Some config => config
  end.

(** [save_config(name, data, remove)]: the content written to the file. *)
Definition save_config (file : option Config) (confirm : bool)
    (name : string) (data : Data) (remove : bool) : Outcome Config :=
  let config := load_existing_config file in
  if remove && has name config then Returned (pop name config)
  else if has name config then
    if negb confirm then Exited 0
    else Returned (assign name data config)
  else Returned (assign name data config).

(** What [remove_instance] leaves behind: how it ended, the config file,
    and the paths handed to [safe_delete]. *)
Record Removal := mkRemoval {
  ended : Outcome unit;
  file_after : option Config;
  deleted : list string
}.

(** [remove_instance(selected, instance_data)].  The name [Mongo] is
    bound only inside the two conversion functions, not in the module. *)
Definition remove_instance (file : option Config) (confirm : bool)
    (selected : string) (instance_data : Data) : Removal :=
  match storage_type instance_data with
  | None => mkRemoval (Failed (KeyError "STORAGE_TYPE")) file []
  | Some kind =>
      if String.eqb kind "MongoDB"
      then mkRemoval (Failed (NameError "Mongo")) file []
      else
        match data_path instance_data with
        | None => mkRemoval (Failed (KeyError "DATA_PATH")) file []
        | Some pth =>
            match save_config file confirm selected no_data true with
            | Returned config => mkRemoval (Returned tt) (Some config) [pth]
            | Exited code => mkRemoval (Exited code) file [pth]
            | Failed e => mkRemoval (Failed e) file [pth]
            end
        end
  end.

End Config.

Arguments lookup {Data} name config.
Arguments has {Data} name config.
Arguments assign {Data} name data config.
Arguments pop {Data} name config.
Arguments well_formed {Data} config.
Arguments load_existing_config {Data} file.
Arguments save_config {Data} file confirm name data remove.
Arguments mkRemoval {Data} ended file_after deleted.
Arguments ended {Data} r.
Arguments file_after {Data} r.
Arguments deleted {Data} r.
Arguments remove_instance {Data} storage_type data_path no_data file confirm
  selected instance_data.

(** A line [get_storage_type] asks again after: it is no integer, or
    none of the two choices. *)
Definition rejected_choice (int : string -> option Z) (line : string) : Prop :=
  match int line with
  | Some n => storage_dict n = None
  | None => True
  end.

(** A line [get_name] asks again after: it is empty or holds a space. *)
Definition rejected_name (line : string) : Prop :=
  line = EmptyString \/ Str.contains " " line = true.

End Setup.

(** ** [bank.py]: the checks of the bank settings commands *)

Module Bank.

(** What a check reads from the invocation. *)
Record Invocation := mkInvocation {
  is_owner : bool;            (* [await ctx.bot.is_owner(author)] *)
  is_global : bool;           (* [await bank.is_global()] *)
  in_guild_channel : bool;    (* [isinstance(ctx.channel, discord.abc.GuildChannel)] *)
  is_guild_owner : bool;      (* [author == ctx.guild.owner] *)
  administrator : bool;       (* [permissions.administrator] *)
  manage_guild : bool;        (* [permissions.manage_guild] *)
  has_admin_role : bool       (* [admin_role in author.roles] *)
}.

(** The predicate of [check_global_setting_guildowner]; [None] is the
    value of a function that ends without [return]. *)
Definition guildowner_pred (i : Invocation) : option bool :=
  if is_owner i then Some true
  else if negb (is_global i) then
    if negb (in_guild_channel i) then Some false
    else Some (is_guild_owner i || administrator i)
  else None.

(** The predicate of [check_global_setting_admin]. *)
Definition admin_pred (i : Invocation) : option bool :=
  if is_owner i then Some true
  else if negb (is_global i) then
    if negb (in_guild_channel i) then Some false
    else Some (has_admin_role i || is_guild_owner i || manage_guild i)
  else None.

(** A check passes when its predicate returns a true value. *)
Definition passes (r : option bool) : bool :=
  match r with Some true => true | _ => false end.

End Bank.

(** * Properties *)

(** ** The collector, for any message source *)

Section CollectorFacts.

Variable history : option nat -> option Message -> option Message -> list Message.
Variable ctx : Context.
Variable number : Z.
Variable check : Message -> bool.
Variable limit : option nat.
Variable after : option Message.

Lemma within_window_snoc tr e :
  within_window ctx tr ->
  (forall m, e = Inspect m -> age_days ctx m < 14) ->
  within_window ctx (tr ++ [e]).
Proof.
  intros Htr He m Hin. apply in_app_or in Hin as [Hin | [Hin | []]].
  - now apply Htr.
  - now apply He.
Qed.

Lemma scan_batch page : forall st,
  Forall (eligible ctx check) (to_delete st) ->
  Forall (eligible ctx check) (to_delete (scan_page ctx number check page st)).
Proof.
  induction page as [| m rest IH]; intros st Hst; simpl; [exact Hst |].
  destruct (((number =? 0) || (len (to_delete st) - 1 <? number))
            && check m && (age_days ctx m <? 14)) eqn:Hadd.
  - apply IH. simpl. apply Forall_app. split; [exact Hst |].
    constructor; [| constructor].
    apply andb_prop in Hadd as [Hadd Hage]. apply andb_prop in Hadd as [_ Hchk].
    split; [exact Hchk | now apply Z.ltb_lt].
  - destruct (age_days ctx m >=? 14); [exact Hst |].
    destruct (negb (number =? 0) && (len (to_delete st) >=? number));
      [exact Hst | now apply IH].
Qed.

Lemma scan_window page : forall st,
  too_old st = false ->
  window_inv ctx st ->
  window_inv ctx (scan_page ctx number check page st).
Proof.
  induction page as [| m rest IH]; intros st Hold Hst; simpl; [exact Hst |].
  unfold window_inv in Hst. rewrite Hold in Hst.
  destruct (((number =? 0) || (len (to_delete st) - 1 <? number))
            && check m && (age_days ctx m <? 14)) eqn:Hadd.
  - apply IH; [exact Hold |]. unfold window_inv. simpl. rewrite Hold.
    apply within_window_snoc; [exact Hst |].
    intros m' [= <-]. apply andb_prop in Hadd as [_ Hage]. now apply Z.ltb_lt.
  - destruct (age_days ctx m >=? 14) eqn:Hage.
    + unfold window_inv. simpl. exists (steps st), m.
      repeat split; [| exact Hst]. apply Z.geb_le in Hage. lia.
    + assert (Hyoung : age_days ctx m < 14).
      { destruct (Z.geb_spec (age_days ctx m) 14); [discriminate | lia]. }
      assert (Hseen : within_window ctx (steps st ++ [Inspect m])).
      { apply within_window_snoc; [exact Hst |]. now intros m' [= <-]. }
      destruct (negb (number =? 0) && (len (to_delete st) >=? number)).
      * unfold window_inv. simpl. now rewrite Hold.
      * apply IH; [exact Hold |]. unfold window_inv. simpl. now rewrite Hold.
Qed.

Lemma collect_batch fuel : forall before st st',
  Forall (eligible ctx check) (to_delete st) ->
  collect history ctx number check limit after fuel before st = Some st' ->
  Forall (eligible ctx check) (to_delete st').
Proof.
  induction fuel as [| fuel IH]; intros before st st' Hst Hrun; simpl in Hrun;
    destruct (negb (too_old st) && (len (to_delete st) - 1 <? number)) eqn:Hgo;
    try discriminate; try (injection Hrun as <-; exact Hst).
  set (st1 := scan_page ctx number check (history limit before after) _) in Hrun.
  assert (H1 : Forall (eligible ctx check) (to_delete st1)) by (apply scan_batch; exact Hst).
  destruct (message st1) as [m |].
  - exact (IH _ _ _ H1 Hrun).
  - now injection Hrun as <-.
Qed.

Lemma collect_window fuel : forall before st st',
  window_inv ctx st ->
  collect history ctx number check limit after fuel before st = Some st' ->
  window_inv ctx st'.
Proof.
  induction fuel as [| fuel IH]; intros before st st' Hst Hrun; simpl in Hrun;
    destruct (negb (too_old st) && (len (to_delete st) - 1 <? number)) eqn:Hgo;
    try discriminate; try (injection Hrun as <-; exact Hst).
  apply andb_prop in Hgo as [Hold _]. apply negb_true_iff in Hold.
  set (st1 := scan_page ctx number check (history limit before after) _) in Hrun.
  assert (H1 : window_inv ctx st1).
  { apply scan_window; [exact Hold |]. unfold window_inv in *. simpl.
    rewrite Hold in *. apply within_window_snoc; [exact Hst | discriminate]. }
  destruct (message st1) as [m |].
  - exact (IH _ _ _ H1 Hrun).
  - now injection Hrun as <-.
Qed.

(** Once the steps end in the over-age message, nothing follows it. *)
Lemma window_inv_last st pre m post :
  window_inv ctx st ->
  steps st = pre ++ Inspect m :: post ->
  14 <= age_days ctx m ->
  post = [].
Proof.
  unfold window_inv. intros Hinv Hsteps Hage.
  destruct (too_old st).
  - destruct Hinv as (pre' & m' & Heq & _ & Hpre').
    destruct post as [| e post] using rev_ind; [reflexivity |].
    exfalso. rewrite Heq in Hsteps.
    change (pre ++ Inspect m :: post ++ [e]) with (pre ++ (Inspect m :: post) ++ [e])
      in Hsteps.
    rewrite app_assoc in Hsteps. apply app_inj_tail in Hsteps as [-> _].
    specialize (Hpre' m). rewrite in_app_iff in Hpre'.
    assert (age_days ctx m < 14) by (apply Hpre'; right; now left). lia.
  - exfalso. assert (age_days ctx m < 14); [| lia].
    apply Hinv. rewrite Hsteps. apply in_or_app. right. now left.
Qed.

End CollectorFacts.

(** ** The collector on a stored channel: it returns *)

Lemma filter_length_lt {A} (p q : A -> bool) (l : list A) (y : A) :
  (forall x, In x l -> p x = true -> q x = true) ->
  In y l -> q y = true -> p y = false ->
  (List.length (filter p l) < List.length (filter q l))%nat.
Proof.
  intros Hpq Hy Hqy Hpy.
  assert (Hle : forall l', (forall x, In x l' -> p x = true -> q x = true) ->
                (List.length (filter p l') <= List.length (filter q l'))%nat).
  { induction l' as [| x l' IH]; intros Hsub; simpl; [lia |].
    assert (Htl := IH (fun z Hz => Hsub z (or_intror Hz))).
    destruct (p x) eqn:Hpx.
    - rewrite (Hsub x (or_introl eq_refl) Hpx). simpl. lia.
    - destruct (q x); simpl; lia. }
  induction l as [| x l IH]; [contradiction |]. simpl.
  assert (Htl := Hle l (fun z Hz => Hpq z (or_intror Hz))).
  destruct Hy as [-> | Hy].
  - rewrite Hpy, Hqy. simpl. lia.
  - assert (Hlt := IH (fun z Hz => Hpq z (or_intror Hz)) Hy).
    destruct (p x) eqn:Hpx.
    + rewrite (Hpq x (or_introl eq_refl) Hpx). simpl. lia.
    + destruct (q x); simpl; lia.
Qed.

Lemma channel_history_In ch limit before after m :
  In m (channel_history ch limit before after) ->
  In m ch /\ in_range before after m = true.
Proof.
  unfold channel_history. intros Hin.
  assert (Hord : In m (match after with
                       | Some _ => rev (filter (in_range before after) ch)
                       | None => filter (in_range before after) ch
                       end)).
  { destruct limit as [n |]; [| exact Hin].
    rewrite <- (firstn_skipn n). apply in_or_app. left. exact Hin. }
  apply filter_In. destruct after; [apply in_rev |]; exact Hord.
Qed.

(** The loop variable after a page is a message of that page. *)
Lemma scan_message ctx number check page : forall st m,
  message (scan_page ctx number check page st) = Some m ->
  In m page \/ message st = Some m.
Proof.
  induction page as [| x rest IH]; intros st m Hm; simpl in Hm; [now right |].
  left.
  repeat match type of Hm with
  | context [if ?b then _ else _] => destruct b
  end;
  try (simpl in Hm; injection Hm as <-; now left);
  apply IH in Hm as [Hm | Hm]; [now right | simpl in Hm; injection Hm as <-; now left
                               | now right | simpl in Hm; injection Hm as <-; now left].
Qed.

Lemma remaining_decreases ch limit before after m :
  In m (channel_history ch limit before after) ->
  (remaining ch (Some m) < remaining ch before)%nat.
Proof.
  intros Hin. apply channel_history_In in Hin as [Hch Hrange].
  apply andb_prop in Hrange as [Hbefore _].
  unfold remaining. apply filter_length_lt with (y := m); trivial.
  - intros x _ Hx. unfold in_range in *. rewrite andb_true_r in *.
    apply Z.ltb_lt in Hx. destruct before as [b |]; [| reflexivity].
    apply Z.ltb_lt in Hbefore. apply Z.ltb_lt. lia.
  - unfold in_range. now rewrite Hbefore.
  - unfold in_range. now rewrite Z.ltb_irrefl.
Qed.

Lemma collect_returns ch ctx number check limit after fuel : forall before st,
  (remaining ch before < fuel)%nat ->
  exists st', collect (channel_history ch) ctx number check limit after fuel before st
              = Some st'.
Proof.
  induction fuel as [| fuel IH]; intros before st Hfuel; [lia |].
  simpl. destruct (negb (too_old st) && (len (to_delete st) - 1 <? number));
    [| now eexists].
  set (st0 := mkScan _ _ None _).
  destruct (message (scan_page ctx number check _ st0)) as [m |] eqn:Hm;
    [| now eexists].
  apply IH. apply scan_message in Hm as [Hm | Hm]; [| discriminate].
  apply remaining_decreases in Hm. lia.
Qed.

Lemma collect_channel_returns ch ctx number check limit before after :
  exists st,
    collect (channel_history ch) ctx number check limit after
            (S (List.length ch)) before initial = Some st /\
    get_messages_for_deletion ch ctx number check limit before after
      = (to_delete st, steps st).
Proof.
  destruct (collect_returns ch ctx number check limit after (S (List.length ch))
              before initial) as [st Hst].
  - unfold remaining. pose proof (filter_length_le (in_range before None) ch). lia.
  - exists st. split; [exact Hst |].
    unfold get_messages_for_deletion. now rewrite Hst.
Qed.

(** ** The size of the batch *)

Lemma len_snoc (l : list Message) (m : Message) : len (l ++ [m]) = len l + 1.
Proof. unfold len. rewrite length_app. simpl. lia. Qed.

Lemma scan_length ctx number check page : forall st,
  0 < number ->
  len (to_delete st) <= number + 1 ->
  len (to_delete (scan_page ctx number check page st)) <= number + 1.
Proof.
  induction page as [| m rest IH]; intros st Hpos Hst; simpl; [exact Hst |].
  destruct (((number =? 0) || (len (to_delete st) - 1 <? number))
            && check m && (age_days ctx m <? 14)) eqn:Hadd.
  - apply IH; [exact Hpos |]. simpl. rewrite len_snoc.
    apply andb_prop in Hadd as [Hadd _]. apply andb_prop in Hadd as [Hroom _].
    apply orb_prop in Hroom as [Hzero | Hroom].
    + apply Z.eqb_eq in Hzero. lia.
    + apply Z.ltb_lt in Hroom. lia.
  - destruct (age_days ctx m >=? 14); [exact Hst |].
    destruct (negb (number =? 0) && (len (to_delete st) >=? number));
      [exact Hst | now apply IH].
Qed.

(** What the loop does guarantee for a positive count: at most one message
    more than requested. *)
Lemma collect_length history ctx number check limit after fuel : forall before st st',
  0 < number ->
  len (to_delete st) <= number + 1 ->
  collect history ctx number check limit after fuel before st = Some st' ->
  len (to_delete st') <= number + 1.
Proof.
  induction fuel as [| fuel IH]; intros before st st' Hpos Hst Hrun; simpl in Hrun;
    destruct (negb (too_old st) && (len (to_delete st) - 1 <? number));
    try discriminate; try (injection Hrun as <-; exact Hst).
  set (st1 := scan_page ctx number check (history limit before after) _) in Hrun.
  assert (H1 : len (to_delete st1) <= number + 1)
    by (apply scan_length; [exact Hpos | exact Hst]).
  destruct (message st1) as [m |].
  - exact (IH _ _ _ Hpos H1 Hrun).
  - now injection Hrun as <-.
Qed.

(** C1 (the code departs from it).  Asked for one message on a channel
    holding two recent ones, with a check that accepts everything, the
    collector returns both: the batch has two messages, one more than the
    requested count.  Run as [messages 1], the command logs a count of one
    and hands both messages to the deletion executor. *)
Theorem collect_exceeds_requested_count :
  let batch :=
    fst (get_messages_for_deletion Sample.recent Sample.ctx 1 (fun _ => true)
           (Some 100%nat) (Some Sample.trigger) None) in
  batch = [Sample.newest; Sample.older] /\ len batch = 2 /\ 1 < len batch
  /\ messages (Sample.env Sample.red Sample.recent []) Sample.ctx 1
     = ([History (Some 1000%nat) (Some Sample.trigger) None;
         Inspect Sample.newest; Inspect Sample.older;
         LogInfo Sample.moderator 1;
         MassPurge [Sample.newest; Sample.older]], Done tt).
Proof. vm_compute. repeat split; reflexivity. Qed.

(** C4 (the code departs from it).  With count 0 and a page size of one,
    on a channel holding two recent messages that both qualify, the
    collector returns after the first page: the batch holds the newest
    message only and the older one is never inspected. *)
Theorem collect_unbounded_stops_after_first_page :
  get_messages_for_deletion Sample.recent Sample.ctx 0 (fun _ => true)
    (Some 1%nat) (Some Sample.trigger) None
  = ([Sample.newest],
     [History (Some 1%nat) (Some Sample.trigger) None; Inspect Sample.newest])
  /\ eligible Sample.ctx (fun _ => true) Sample.older
  /\ In Sample.older (channel_history Sample.recent None (Some Sample.trigger) None).
Proof.
  split; [vm_compute; reflexivity |]. split.
  - split; [reflexivity | vm_compute; reflexivity].
  - vm_compute. right. left. reflexivity.
Qed.

(** The same through the command surface: [messages 0] on a channel with
    1001 recent messages pages by 1000 and hands over the newest 1000. *)
Lemma messages_zero_stops_after_first_page :
  let run := messages (Sample.env Sample.red Sample.busy []) Sample.late_ctx 0 in
  last (trace run) (Send Cancelled) = MassPurge (firstn 1000 Sample.busy)
  /\ List.length Sample.busy = 1001%nat
  /\ forallb (fun m => age_days Sample.late_ctx m <? 14) Sample.busy = true.
Proof. vm_compute. repeat split; reflexivity. Qed.

(** ** What the collector leaves in its steps *)

Lemma scan_steps ctx number check page : forall st,
  Forall (fun e => is_scan_step e = true) (steps st) ->
  Forall (fun e => is_scan_step e = true) (steps (scan_page ctx number check page st)).
Proof.
  induction page as [| m rest IH]; intros st Hst; simpl; [exact Hst |].
  assert (Hseen : Forall (fun e => is_scan_step e = true) (steps st ++ [Inspect m])).
  { apply Forall_app. split; [exact Hst | now repeat constructor]. }
  repeat match goal with
  | |- context [if ?b then _ else _] => destruct b
  end; try apply IH; exact Hseen.
Qed.

Lemma collect_steps history ctx number check limit after fuel : forall before st st',
  Forall (fun e => is_scan_step e = true) (steps st) ->
  collect history ctx number check limit after fuel before st = Some st' ->
  Forall (fun e => is_scan_step e = true) (steps st').
Proof.
  induction fuel as [| fuel IH]; intros before st st' Hst Hrun; simpl in Hrun;
    destruct (negb (too_old st) && (len (to_delete st) - 1 <? number));
    try discriminate; try (injection Hrun as <-; exact Hst).
  set (st1 := scan_page ctx number check (history limit before after) _) in Hrun.
  assert (H1 : Forall (fun e => is_scan_step e = true) (steps st1)).
  { apply scan_steps. simpl. apply Forall_app. split; [exact Hst | now repeat constructor]. }
  destruct (message st1) as [m |].
  - exact (IH _ _ _ H1 Hrun).
  - now injection Hrun as <-.
Qed.

Lemma get_messages_for_deletion_steps ch ctx number check limit before after :
  Forall (fun e => is_scan_step e = true)
         (snd (get_messages_for_deletion ch ctx number check limit before after)).
Proof.
  destruct (collect_channel_returns ch ctx number check limit before after)
    as (st & Hrun & ->).
  simpl. eapply collect_steps; [| exact Hrun]. constructor.
Qed.

Lemma get_messages_for_deletion_eligible ch ctx number check limit before after :
  Forall (eligible ctx check)
         (fst (get_messages_for_deletion ch ctx number check limit before after)).
Proof.
  destruct (collect_channel_returns ch ctx number check limit before after)
    as (st & Hrun & ->).
  simpl. eapply collect_batch; [| exact Hrun]. constructor.
Qed.

(** C3.  On every stored channel, for every count, check, page size and
    cursors: a message inspected at fourteen days or more is the last
    step the collector takes (no message is inspected and no page is
    requested after it), and no message of the batch has reached
    fourteen days. *)
Theorem scan_stops_at_first_over_age_message
    ch ctx number check limit before after batch tr :
  get_messages_for_deletion ch ctx number check limit before after = (batch, tr) ->
  (forall pre m post,
      tr = pre ++ Inspect m :: post -> 14 <= age_days ctx m -> post = [])
  /\ (forall m, In m batch -> age_days ctx m < 14).
Proof.
  intros Hrun.
  destruct (collect_channel_returns ch ctx number check limit before after)
    as (st & Hloop & Heq).
  rewrite Hrun in Heq. injection Heq as -> ->. split.
  - intros pre m post Hsteps Hage.
    apply (window_inv_last ctx st pre m post); trivial.
    eapply collect_window; [| exact Hloop].
    unfold window_inv, within_window. simpl. contradiction.
  - intros m Hin.
    assert (Hall : Forall (eligible ctx check) (to_delete st))
      by (eapply collect_batch; [| exact Hloop]; constructor).
    rewrite Forall_forall in Hall. now apply Hall.
Qed.

Lemma scan_stops_at_first_over_age_message_witness :
  get_messages_for_deletion Sample.aging Sample.ctx 10 (text_check Sample.ctx "x")
    (Some 1000%nat) (Some Sample.trigger) None
  = ([Sample.day1; Sample.day3],
     [History (Some 1000%nat) (Some Sample.trigger) None; Inspect Sample.day1;
      Inspect Sample.day2; Inspect Sample.day3] ++ Inspect Sample.day15 :: [])
  /\ 14 <= age_days Sample.ctx Sample.day15
  /\ @nil Event = []
  /\ age_days Sample.ctx Sample.day3 < 14.
Proof.
  assert (Hrun : get_messages_for_deletion Sample.aging Sample.ctx 10
                   (text_check Sample.ctx "x") (Some 1000%nat) (Some Sample.trigger) None
                 = ([Sample.day1; Sample.day3],
                    [History (Some 1000%nat) (Some Sample.trigger) None;
                     Inspect Sample.day1; Inspect Sample.day2; Inspect Sample.day3]
                    ++ Inspect Sample.day15 :: []))
    by (vm_compute; reflexivity).
  assert (Hage : 14 <= age_days Sample.ctx Sample.day15) by (vm_compute; discriminate).
  destruct (scan_stops_at_first_over_age_message _ _ _ _ _ _ _ _ _ Hrun)
    as [Hlast Hbatch].
  split; [exact Hrun |]. split; [exact Hage |]. split.
  - exact (Hlast _ Sample.day15 [] eq_refl Hage).
  - apply Hbatch. right. left. reflexivity.
Defined.

(** ** Running commands *)

Lemma bind_ret_l {A B} (a : A) (k : A -> Cmd B) : bind (ret a) k = k a.
Proof. unfold bind, ret. destruct (k a). reflexivity. Qed.

Lemma bind_done {A B} (tr : list Event) (a : A) (k : A -> Cmd B) :
  bind (tr, Done a) k = (tr ++ trace (k a), result (k a)).
Proof. unfold bind, trace, result. destruct (k a). reflexivity. Qed.

Lemma bind_trace_Forall {A B} (P : Event -> Prop) (c : Cmd A) (k : A -> Cmd B) :
  Forall P (trace c) ->
  (forall a, Forall P (trace (k a))) ->
  Forall P (trace (bind c k)).
Proof.
  intros Hc Hk. destruct c as [tr [a | e |]]; [| exact Hc | exact Hc].
  rewrite bind_done. apply Forall_app. split; [exact Hc | apply Hk].
Qed.

Lemma collect_messages_run w ctx number check limit before after :
  collect_messages w ctx number check limit before after
  = (snd (get_messages_for_deletion (channel w) ctx number check limit before after),
     Done (fst (get_messages_for_deletion (channel w) ctx number check limit before after))).
Proof.
  unfold collect_messages.
  destruct (get_messages_for_deletion (channel w) ctx number check limit before after).
  reflexivity.
Qed.

(** Lower-casing turns exactly the two letters y and Y into y. *)
Lemma startswith_lower_char (c : ascii) (s : string) :
  Str.startswith (String (Str.lower_ascii c) s) "y"
  = (Ascii.eqb c "y" || Ascii.eqb c "Y")%bool.
Proof.
  destruct c as [[] [] [] [] [] [] [] []]; vm_compute; try reflexivity;
    destruct s; reflexivity.
Qed.

Lemma startswith_lower_y (s : string) :
  Str.startswith (Str.lower s) "y" = true <-> starts_with_y s.
Proof.
  unfold starts_with_y. destruct s as [| c s].
  - split; [discriminate | intros [rest [H | H]]; discriminate].
  - change (Str.lower (String c s)) with (String (Str.lower_ascii c) (Str.lower s)).
    rewrite startswith_lower_char. split.
    + intros Hy. exists s.
      apply orb_prop in Hy as [Hy | Hy]; apply Ascii.eqb_eq in Hy; subst c; auto.
    + intros [rest [H | H]]; injection H as -> _; reflexivity.
Qed.

(** The confirmation step, by what the invoking author answers. *)
Lemma check_100_plus_run w ctx number :
  check_100_plus w ctx number =
  match first_response w ctx with
  | None => ([Send (ConfirmPrompt number); WaitFor None], Waiting)
  | Some (_, response) =>
      if Str.startswith (Str.lower (content response)) "y"
      then ([Send (ConfirmPrompt number); WaitFor None], Done true)
      else ([Send (ConfirmPrompt number); WaitFor None; Send Cancelled], Done false)
  end.
Proof.
  unfold check_100_plus, wait_for, first_response.
  destruct (find (fun a => author_check ctx (snd a)) (incoming w)) as [[t r] |]; simpl.
  - destruct (Str.startswith (Str.lower (content r)) "y"); reflexivity.
  - reflexivity.
Qed.

Lemma confirmed_then_small w ctx number rest :
  number <= 100 -> confirmed_then w ctx number rest = rest.
Proof.
  intros Hle. unfold confirmed_then.
  destruct (Z.gtb_spec number 100); [lia | reflexivity].
Qed.

Lemma confirmed_then_yes w ctx number rest t response :
  100 < number ->
  first_response w ctx = Some (t, response) ->
  starts_with_y (content response) ->
  confirmed_then w ctx number rest
  = (Send (ConfirmPrompt number) :: WaitFor None :: trace rest, result rest).
Proof.
  intros Hgt Hfirst Hyes. unfold confirmed_then.
  destruct (Z.gtb_spec number 100); [| lia].
  rewrite check_100_plus_run, Hfirst.
  apply startswith_lower_y in Hyes. rewrite Hyes.
  rewrite bind_done. reflexivity.
Qed.

Lemma confirmed_then_no w ctx number rest t response :
  100 < number ->
  first_response w ctx = Some (t, response) ->
  ~ starts_with_y (content response) ->
  confirmed_then w ctx number rest
  = ([Send (ConfirmPrompt number); WaitFor None; Send Cancelled], Done tt).
Proof.
  intros Hgt Hfirst Hno. unfold confirmed_then.
  destruct (Z.gtb_spec number 100); [| lia].
  rewrite check_100_plus_run, Hfirst.
  destruct (Str.startswith (Str.lower (content response)) "y") eqn:Hy.
  - exfalso. apply Hno. now apply startswith_lower_y.
  - reflexivity.
Qed.

(** ** Steps of the pipelines *)

Lemma collect_messages_steps w ctx number check limit before after :
  Forall (fun e => is_scan_step e = true)
         (trace (collect_messages w ctx number check limit before after)).
Proof. rewrite collect_messages_run. apply get_messages_for_deletion_steps. Qed.

Lemma scan_step_not_prompt e : is_scan_step e = true -> is_prompt e = false.
Proof. destruct e; simpl; congruence. Qed.

Lemma scan_step_not_deletion e : is_scan_step e = true -> is_deletion e = false.
Proof. destruct e; simpl; congruence. Qed.

Lemma resolve_user_trace w u : trace (resolve_user w u) = [].
Proof.
  unfold resolve_user. destruct (convert_member w u); [reflexivity |].
  destruct (int_of_str w u); reflexivity.
Qed.

Lemma content_match_trace w p : trace (content_match w p) = [].
Proof.
  unfold content_match. destruct p as [p |]; [| reflexivity].
  destruct (use_re (Some p)).
  - destruct (re_compile w (Str.drop 1 p)); reflexivity.
  - destruct (Str.truthy p); reflexivity.
Qed.

Lemma pipeline_never_prompts w ctx c number :
  Forall (fun e => is_prompt e = false) (trace (pipeline w ctx c number)).
Proof.
  assert (Hcollect : forall check,
    Forall (fun e => is_prompt e = false)
      (trace (collect_messages w ctx number check (Some 1000%nat)
                (Some (ctx_message ctx)) None))).
  { intros check. eapply Forall_impl; [| apply collect_messages_steps].
    apply scan_step_not_prompt. }
  destruct c as [t | u | | | p]; simpl;
    unfold text_pipeline, user_pipeline, messages_pipeline, bot_pipeline, self_pipeline;
    repeat (apply bind_trace_Forall; [| intro]);
    try apply Hcollect;
    try (rewrite resolve_user_trace; constructor);
    try (rewrite content_match_trace; constructor);
    try (unfold read_local; destruct (fst _); repeat constructor);
    try (repeat constructor; fail);
    match goal with
    | |- context [if ?b then _ else _] => destruct b; repeat constructor
    end.
Qed.

Lemma run_bounded_gate w ctx c number :
  arguments_ok w c = true ->
  run_bounded w ctx c number = confirmed_then w ctx number (pipeline w ctx c number).
Proof.
  destruct c as [t | u | | | p]; try reflexivity.
  simpl. unfold user, resolve_user.
  destruct (convert_member w u) as [member |].
  - intros _. now rewrite !bind_ret_l.
  - destruct (int_of_str w u) as [_id |]; [| discriminate].
    intros _. now rewrite !bind_ret_l.
Qed.

Lemma confirmed_then_unanswered w ctx number rest :
  100 < number ->
  first_response w ctx = None ->
  confirmed_then w ctx number rest
  = ([Send (ConfirmPrompt number); WaitFor None], Waiting).
Proof.
  intros Hgt Hfirst. unfold confirmed_then.
  destruct (Z.gtb_spec number 100); [| lia].
  rewrite check_100_plus_run, Hfirst. reflexivity.
Qed.

(** C5.  For each of the bounded subcommands [text], [user], [messages],
    [bot] and [self]: with a count of 100 or less the command is its
    pipeline, and neither prompts nor waits; with a count above 100 its
    first two steps are the confirmation prompt and the wait for the
    author, before anything is collected or deleted; a response that
    starts with y or Y lets the pipeline run after these two steps, any
    other response ends the command after the cancellation notice, with
    nothing collected or deleted; and while no response has arrived the
    command has taken these two steps and nothing else.  ([user]
    converts its argument first: when it resolves neither to a member nor
    to an integer the command raises [BadArgument] with no step taken.) *)
Theorem confirmation_gate w ctx c number :
  (arguments_ok w c = false -> run_bounded w ctx c number = ([], Raised BadArgument))
  /\ (arguments_ok w c = true ->
      (number <= 100 ->
         run_bounded w ctx c number = pipeline w ctx c number
         /\ Forall (fun e => is_prompt e = false) (trace (run_bounded w ctx c number)))
      /\ (100 < number ->
            (first_response w ctx = None ->
               run_bounded w ctx c number
               = ([Send (ConfirmPrompt number); WaitFor None], Waiting))
            /\ forall t response,
                 first_response w ctx = Some (t, response) ->
                 (starts_with_y (content response) ->
                    run_bounded w ctx c number
                    = (Send (ConfirmPrompt number) :: WaitFor None
                         :: trace (pipeline w ctx c number),
                       result (pipeline w ctx c number)))
                 /\ (~ starts_with_y (content response) ->
                    run_bounded w ctx c number
                    = ([Send (ConfirmPrompt number); WaitFor None; Send Cancelled],
                       Done tt)))).
Proof.
  split.
  - destruct c as [t | u | | | p]; try discriminate. simpl.
    unfold user, resolve_user.
    destruct (convert_member w u); [discriminate |].
    destruct (int_of_str w u); [discriminate | reflexivity].
  - intros Hok. rewrite (run_bounded_gate w ctx c number Hok). split.
    + intros Hle. rewrite confirmed_then_small by exact Hle.
      split; [reflexivity | apply pipeline_never_prompts].
    + intros Hgt. split.
      * intros Hnone. now apply confirmed_then_unanswered.
      * intros t response Hfirst. split; intros Hy.
        -- now apply confirmed_then_yes with (t := t) (response := response).
        -- now apply confirmed_then_no with (t := t) (response := response).
Qed.

Lemma confirmation_gate_witness :
  let yes := Sample.env Sample.red Sample.recent [(2%nat, Sample.reply "Yes")] in
  let no := Sample.env Sample.red Sample.recent [(2%nat, Sample.reply "no way")] in
  let silent := Sample.env Sample.red Sample.recent [(1%nat, Sample.chatter "y")] in
  run_bounded yes Sample.ctx CleanupMessages 150
  = (Send (ConfirmPrompt 150) :: WaitFor None
       :: trace (pipeline yes Sample.ctx CleanupMessages 150),
     result (pipeline yes Sample.ctx CleanupMessages 150))
  /\ run_bounded no Sample.ctx CleanupMessages 150
     = ([Send (ConfirmPrompt 150); WaitFor None; Send Cancelled], Done tt)
  /\ run_bounded yes Sample.ctx CleanupMessages 2
     = pipeline yes Sample.ctx CleanupMessages 2
  /\ run_bounded silent Sample.ctx (CleanupText "x") 150
     = ([Send (ConfirmPrompt 150); WaitFor None], Waiting).
Proof.
  intros yes no silent.
  assert (Hlarge : 100 < 150) by lia.
  assert (Hsmall : 2 <= 100) by lia.
  split; [| split; [| split]].
  - apply (proj1 (proj2 (proj2 (proj2 (confirmation_gate yes Sample.ctx CleanupMessages 150)
                                  eq_refl) Hlarge)
                   2%nat (Sample.reply "Yes") eq_refl)).
    exists "es"%string. right. reflexivity.
  - apply (proj2 (proj2 (proj2 (proj2 (confirmation_gate no Sample.ctx CleanupMessages 150)
                                  eq_refl) Hlarge)
                   2%nat (Sample.reply "no way") eq_refl)).
    intros [rest [H | H]]; discriminate H.
  - apply (proj1 (proj1 (proj2 (confirmation_gate yes Sample.ctx CleanupMessages 2)
                          eq_refl) Hsmall)).
  - apply (proj1 (proj2 (proj2 (confirmation_gate silent Sample.ctx (CleanupText "x") 150)
                          eq_refl) Hlarge)).
    reflexivity.
Defined.

(** C6.  When the bot does not run on a bot account, [after] sends the
    notice that it needs one and returns: that notice is its only step, so
    no message is looked up, no history page is requested and nothing is
    deleted. *)
Theorem after_requires_bot_account w ctx message_id :
  user_bot (bot_user w) = false ->
  after w ctx message_id = ([Send BotAccountOnly], Done tt).
Proof. intros Hbot. unfold after. rewrite Hbot. reflexivity. Qed.

Lemma after_requires_bot_account_witness :
  after (Sample.env Sample.selfbot Sample.recent []) Sample.ctx 11
  = ([Send BotAccountOnly], Done tt).
Proof.
  apply (after_requires_bot_account
           (Sample.env Sample.selfbot Sample.recent []) Sample.ctx 11).
  reflexivity.
Defined.

(** C7 as stated fails: with no response from the author the confirmation
    step does not resolve to declined; it stays suspended in the wait. *)
Lemma confirmation_wait_unanswered :
  ~ (forall w ctx number,
       first_response w ctx = None ->
       result (check_100_plus w ctx number) = Done false).
Proof.
  intros H.
  specialize (H (Sample.env Sample.red Sample.recent []) Sample.ctx 150 eq_refl).
  discriminate H.
Qed.

(** C7, amended.  The confirmation step sends the prompt and waits for the
    author's next message with no timeout.  When that message arrives the
    step returns: true, with no further step, when its content starts
    with y or Y; false, after sending the cancellation notice, otherwise.
    When no such message ever arrives the step stays suspended after the
    prompt and the wait: it yields no result. *)
Theorem confirmation_wait_has_no_timeout w ctx number :
  (forall t response,
      first_response w ctx = Some (t, response) ->
      exists cont : bool,
        check_100_plus w ctx number
        = (Send (ConfirmPrompt number) :: WaitFor None
             :: (if cont then [] else [Send Cancelled]),
           Done cont)
        /\ (cont = true <-> starts_with_y (content response)))
  /\ (first_response w ctx = None ->
      check_100_plus w ctx number
      = ([Send (ConfirmPrompt number); WaitFor None], Waiting))
  /\ In (WaitFor None) (trace (check_100_plus w ctx number)).
Proof.
  rewrite check_100_plus_run. split; [| split].
  - intros t response ->.
    destruct (Str.startswith (Str.lower (content response)) "y") eqn:Hy.
    + exists true. split; [reflexivity |].
      split; [intros _; now apply startswith_lower_y | reflexivity].
    + exists false. split; [reflexivity |].
      split; [discriminate |]. intros Hyes. apply startswith_lower_y in Hyes. congruence.
  - now intros ->.
  - destruct (first_response w ctx) as [[t response] |]; [| simpl; auto].
    destruct (Str.startswith (Str.lower (content response)) "y"); simpl; auto.
Qed.

Lemma confirmation_wait_has_no_timeout_witness :
  (exists cont : bool,
     check_100_plus
       (Sample.env Sample.red Sample.recent
          [(1%nat, Sample.chatter "no"); (2%nat, Sample.reply "Yes")])
       Sample.ctx 150
     = (Send (ConfirmPrompt 150) :: WaitFor None
          :: (if cont then [] else [Send Cancelled]),
        Done cont)
     /\ (cont = true <-> starts_with_y "Yes"))
  /\ (exists cont : bool,
        check_100_plus
          (Sample.env Sample.red Sample.recent [(2%nat, Sample.reply "nope")])
          Sample.ctx 150
        = (Send (ConfirmPrompt 150) :: WaitFor None
             :: (if cont then [] else [Send Cancelled]),
           Done cont)
        /\ (cont = true <-> starts_with_y "nope"))
  /\ check_100_plus (Sample.env Sample.red Sample.recent []) Sample.ctx 150
     = ([Send (ConfirmPrompt 150); WaitFor None], Waiting).
Proof.
  split; [| split].
  - apply (proj1 (confirmation_wait_has_no_timeout
                    (Sample.env Sample.red Sample.recent
                       [(1%nat, Sample.chatter "no"); (2%nat, Sample.reply "Yes")])
                    Sample.ctx 150) 2%nat (Sample.reply "Yes")).
    reflexivity.
  - apply (proj1 (confirmation_wait_has_no_timeout
                    (Sample.env Sample.red Sample.recent [(2%nat, Sample.reply "nope")])
                    Sample.ctx 150) 2%nat (Sample.reply "nope")).
    reflexivity.
  - apply (proj1 (proj2 (confirmation_wait_has_no_timeout
                           (Sample.env Sample.red Sample.recent []) Sample.ctx 150))).
    reflexivity.
Defined.

(** ** The checks the subcommands build *)

Lemma message_eq_refl m : message_eq m m = true.
Proof. apply Z.eqb_refl. Qed.

(** C8 as stated fails: the check built by [self] rejects the command
    message of a moderator, whatever the pattern. *)
Lemma self_check_rejects_trigger :
  ~ (forall w ctx match_pattern matches,
       content_match w match_pattern = ret matches ->
       self_check w matches (ctx_message ctx) = true).
Proof.
  intros H.
  specialize (H (Sample.env Sample.red Sample.recent []) Sample.ctx None
                (fun _ => true) eq_refl).
  discriminate H.
Qed.

(** C8, amended.  The checks built by [text], [user] and [bot] accept the
    triggering command message for every text, user id, prefix list,
    content and author.  The check built by [self] accepts it exactly when
    its author is the bot and its content matches the pattern. *)
Theorem checks_on_trigger w ctx :
  (forall text, text_check ctx text (ctx_message ctx) = true)
  /\ (forall _id, user_check ctx _id (ctx_message ctx) = true)
  /\ (forall prefixes, bot_check w ctx prefixes (ctx_message ctx) = true)
  /\ (forall matches,
        self_check w matches (ctx_message ctx)
        = (user_eq (ctx_author ctx) (bot_user w)
           && matches (content (ctx_message ctx)))%bool).
Proof.
  split; [| split; [| split]].
  - intros text. unfold text_check. rewrite message_eq_refl.
    now destruct (Str.contains text (content (ctx_message ctx))).
  - intros _id. unfold user_check. rewrite message_eq_refl.
    now destruct (user_id (author (ctx_message ctx)) =? _id).
  - intros prefixes. unfold bot_check. rewrite message_eq_refl.
    now destruct (user_id (author (ctx_message ctx)) =? user_id (bot_user w)).
  - intros matches. unfold self_check, user_eq, ctx_author.
    destruct (user_id (author (ctx_message ctx)) =? user_id (bot_user w)); simpl;
      [| reflexivity].
    now destruct (matches (content (ctx_message ctx))).
Qed.

(** C9 as stated fails: with the prefixes listed as [!] then [!!], the
    content [!!help] is matched with [!], the shorter of the two. *)
Lemma first_listed_prefix_not_longest :
  ~ (forall prefixes c p q,
       find_prefix prefixes c = Some p ->
       In q prefixes -> Str.startswith c q = true ->
       (String.length q <= String.length p)%nat).
Proof.
  intros H.
  specialize (H ["!"; "!!"]%string "!!help"%string "!"%string "!!"%string eq_refl).
  simpl in H. specialize (H (or_intror (or_introl eq_refl)) eq_refl). lia.
Qed.

Lemma find_prefix_first prefixes c p :
  find_prefix prefixes c = Some p ->
  exists l1 l2,
    prefixes = l1 ++ p :: l2 /\ Str.startswith c p = true
    /\ forall q, In q l1 -> Str.startswith c q = false.
Proof.
  unfold find_prefix. induction prefixes as [| x l IH]; simpl; [discriminate |].
  destruct (Str.startswith c x) eqn:Hx.
  - intros [= ->]. exists [], l. repeat split; trivial. contradiction.
  - intros Hfind. destruct (IH Hfind) as (l1 & l2 & -> & Hp & Hl1).
    exists (x :: l1), l2. repeat split; trivial.
    intros q [<- | Hq]; [exact Hx | now apply Hl1].
Qed.

Lemma truthy_length p : (0 <? Z.of_nat (String.length p)) = Str.truthy p.
Proof. destruct p; reflexivity. Qed.

(** C9, amended.  The prefix stripped before the command name is looked up
    is the first one, in the order of the list, that the content starts
    with; the check then looks up the text between that prefix and the
    first space.  When the list is ordered longest first, it is a longest
    one among the prefixes the content starts with. *)
Theorem stripped_prefix_is_first_listed prefixes c p :
  find_prefix prefixes c = Some p ->
  (exists l1 l2,
     prefixes = l1 ++ p :: l2 /\ Str.startswith c p = true
     /\ forall q, In q l1 -> Str.startswith c q = false)
  /\ (forall w ctx m,
        content m = c ->
        user_id (author m) <> user_id (bot_user w) ->
        message_eq m (ctx_message ctx) = false ->
        bot_check w ctx prefixes m
        = (Str.truthy p && get_command w (command_name p c))%bool)
  /\ (longest_first prefixes ->
      forall q, In q prefixes -> Str.startswith c q = true ->
                (String.length q <= String.length p)%nat).
Proof.
  intros Hfind. destruct (find_prefix_first prefixes c p Hfind) as (l1 & l2 & Heq & Hp & Hl1).
  split; [now exists l1, l2 |]. split.
  - intros w ctx m Hc Hauthor Htrigger. unfold bot_check.
    apply Z.eqb_neq in Hauthor. rewrite Hauthor, Htrigger, Hc, Hfind.
    rewrite truthy_length. now destruct (Str.truthy p).
  - intros Hsorted q Hq Hstart. rewrite Heq in Hq.
    apply in_app_or in Hq as [Hq | [<- | Hq]].
    + rewrite (Hl1 q Hq) in Hstart. discriminate.
    + lia.
    + exact (Hsorted l1 p l2 q Heq Hq).
Qed.

Lemma stripped_prefix_is_first_listed_witness :
  find_prefix ["!!"; "!"]%string "!!help" = Some "!!"%string
  /\ (String.length "!" <= String.length "!!")%nat.
Proof.
  split; [reflexivity |].
  apply (proj2 (proj2 (stripped_prefix_is_first_listed
                         ["!!"; "!"]%string "!!help" "!!" eq_refl)));
    [| right; left; reflexivity | reflexivity].
  intros l1 p l2 q Heq Hq.
  destruct l1 as [| a [| b [| d l1]]]; simpl in Heq.
  - injection Heq as <- <-. destruct Hq as [<- | []]. simpl. lia.
  - injection Heq as _ <- <-. destruct Hq.
  - injection Heq as _ _ Heq. discriminate Heq.
  - injection Heq as _ _ Heq. discriminate Heq.
Defined.

(** ** [user] with an id that is not a member *)

(** C10.  When the argument of [user] does not resolve to a member but
    reads as an integer, and the count needs no confirmation, the command
    collects the batch and then raises the unbound-variable error for
    [member]: its steps are those of the collection, and nothing is
    deleted. *)
Theorem user_unbound_member w ctx u number _id :
  convert_member w u = None ->
  int_of_str w u = Some _id ->
  number <= 100 ->
  user w ctx u number
  = (snd (get_messages_for_deletion (channel w) ctx number (user_check ctx _id)
            (Some 1000%nat) (Some (ctx_message ctx)) None),
     Raised (UnboundLocalError "member"))
  /\ Forall (fun e => is_deletion e = false) (trace (user w ctx u number)).
Proof.
  intros Hmember Hint Hle.
  assert (Hrun : user w ctx u number
                 = (snd (get_messages_for_deletion (channel w) ctx number
                           (user_check ctx _id) (Some 1000%nat)
                           (Some (ctx_message ctx)) None),
                    Raised (UnboundLocalError "member"))).
  { unfold user, resolve_user. rewrite Hmember, Hint, bind_ret_l.
    rewrite confirmed_then_small by exact Hle.
    unfold user_pipeline. rewrite collect_messages_run, bind_done.
    simpl. now rewrite app_nil_r. }
  split; [exact Hrun |]. rewrite Hrun. simpl.
  eapply Forall_impl; [| apply get_messages_for_deletion_steps].
  apply scan_step_not_deletion.
Qed.

Lemma user_unbound_member_witness :
  user (Sample.env Sample.red Sample.recent []) Sample.ctx "7" 5
  = ([History (Some 1000%nat) (Some Sample.trigger) None;
      Inspect Sample.newest; Inspect Sample.older;
      History (Some 1000%nat) (Some Sample.older) None],
     Raised (UnboundLocalError "member")).
Proof.
  assert (Hle : 5 <= 100) by lia.
  exact (proj1 (user_unbound_member (Sample.env Sample.red Sample.recent [])
                  Sample.ctx "7" 5 7 eq_refl eq_refl Hle)).
Defined.

(** ** The batch handed to the deletion executor *)

Lemma age_of_trigger ctx : age_days ctx (ctx_message ctx) = 0.
Proof. unfold age_days, days_between. now rewrite Z.sub_diag. Qed.

Lemma confirmed_then_deletion w ctx number rest e :
  In e (trace (confirmed_then w ctx number rest)) ->
  is_deletion e = true ->
  In e (trace rest).
Proof.
  unfold confirmed_then. destruct (number >? 100); [| trivial].
  rewrite check_100_plus_run.
  destruct (first_response w ctx) as [[t response] |].
  - destruct (Str.startswith (Str.lower (content response)) "y").
    + rewrite bind_done. simpl. intros [<- | [<- | H]] Hd; try discriminate Hd. exact H.
    + rewrite bind_done. simpl. intros [<- | [<- | [<- | []]]] Hd; discriminate Hd.
  - simpl. intros [<- | [<- | []]] Hd; discriminate Hd.
Qed.

Lemma content_match_result w p :
  (exists matches, content_match w p = ret matches)
  \/ content_match w p = raise ReError.
Proof.
  unfold content_match. destruct p as [p |]; [| left; now eexists].
  destruct (use_re (Some p)).
  - destruct (re_compile w (Str.drop 1 p)); [left; now eexists | now right].
  - destruct (Str.truthy p); left; now eexists.
Qed.

(** The one deletion step of [self]: the collected messages, followed by
    the command message when its author is the bot. *)
Lemma self_pipeline_deletion w ctx number p e :
  In e (trace (self_pipeline w ctx number p)) ->
  is_deletion e = true ->
  exists matches,
    content_match w p = ret matches /\
    let collected :=
      fst (get_messages_for_deletion (channel w) ctx number (self_check w matches)
             (Some 1000%nat) (Some (ctx_message ctx)) None) in
    let to_delete :=
      if user_eq (author (ctx_message ctx)) (bot_user w)
      then collected ++ [ctx_message ctx] else collected in
    e = MassPurge to_delete \/ e = SlowDeletion to_delete.
Proof.
  unfold self_pipeline.
  destruct (content_match_result w p) as [[matches Hm] | Hm]; rewrite Hm.
  - rewrite bind_ret_l, collect_messages_run, bind_done. simpl.
    intros Hin Hd. exists matches. split; [reflexivity |].
    apply in_app_or in Hin as [Hin | Hin].
    + pose proof (get_messages_for_deletion_steps (channel w) ctx number
                    (self_check w matches) (Some 1000%nat)
                    (Some (ctx_message ctx)) None) as Hsteps.
      rewrite Forall_forall in Hsteps. apply Hsteps in Hin.
      apply scan_step_not_deletion in Hin. congruence.
    + destruct (user_bot (bot_user w)
                && (if author_is_member ctx then me_manage_messages ctx else false));
        simpl in Hin; destruct Hin as [<- | [<- | []]]; try discriminate Hd; auto.
  - simpl. contradiction.
Qed.

(** C2 as stated fails on [self]: run by a self-bot with a pattern that
    holds a double quote, it hands over a batch that holds the command
    message, whose content (the quote written with a backslash) does not
    contain the pattern. *)
Lemma self_batch_holds_unchecked_trigger :
  ~ (forall w ctx number match_pattern matches batch m,
       content_match w match_pattern = ret matches ->
       handed_over (trace (cleanup_self w ctx number match_pattern)) batch ->
       In m batch ->
       self_check w matches m = true /\ age_days ctx m < 14).
Proof.
  intros H.
  destruct (H (Sample.env Sample.selfbot [] []) Sample.self_ctx 1
              (Some Sample.quoted) (fun c => Str.contains Sample.quoted c)
              [Sample.self_trigger] Sample.self_trigger eq_refl)
    as [Hcheck _].
  - right. vm_compute. right. right. left. reflexivity.
  - left. reflexivity.
  - vm_compute in Hcheck. discriminate Hcheck.
Qed.


(** * Further properties *)

(** ** The collector on a channel stored newest first *)

Lemma over_age_not_young ctx m : (age_days ctx m >=? 14) = negb (young ctx m).
Proof.
  unfold young. rewrite Z.geb_leb.
  destruct (Z.leb_spec 14 (age_days ctx m)), (Z.ltb_spec (age_days ctx m) 14);
    (reflexivity || lia).
Qed.

Lemma sweep_no_room ctx number check td rest :
  (len td - 1 <? number) = false -> sweep ctx number check td rest = td.
Proof. intros Hfull. destruct rest; simpl; [reflexivity | now rewrite Hfull]. Qed.

Lemma sweep_closed_form ctx number check rest : forall td,
  len td <= number + 1 ->
  sweep ctx number check td rest
  = td ++ firstn (Z.to_nat (number + 1 - len td))
                 (filter check (take_while (young ctx) rest)).
Proof.
  induction rest as [| m rest IH]; intros td Hlen; simpl.
  - now rewrite firstn_nil, app_nil_r.
  - destruct (Z.ltb_spec (len td - 1) number) as [Hroom | Hfull].
    + destruct (young ctx m) eqn:Hyoung.
      * destruct (check m) eqn:Hcheck; simpl.
        -- rewrite IH by (rewrite len_snoc; lia). rewrite len_snoc, Hcheck.
           replace (Z.to_nat (number + 1 - len td))
             with (S (Z.to_nat (number + 1 - (len td + 1)))) by lia.
           simpl. now rewrite <- app_assoc.
        -- rewrite Hcheck. now apply IH.
      * rewrite andb_false_r. simpl. now rewrite firstn_nil, app_nil_r.
    + replace (Z.to_nat (number + 1 - len td)) with 0%nat by lia.
      simpl. now rewrite app_nil_r.
Qed.

Lemma scan_sweep ctx number check (Hpos : 0 < number) page : forall st,
  too_old st = false -> page <> [] ->
  exists p1 m p2,
    page = p1 ++ m :: p2 /\
    message (scan_page ctx number check page st) = Some m /\
    forall rest,
      if too_old (scan_page ctx number check page st)
      then to_delete (scan_page ctx number check page st)
           = sweep ctx number check (to_delete st) (page ++ rest)
      else sweep ctx number check (to_delete (scan_page ctx number check page st))
                 (p2 ++ rest)
           = sweep ctx number check (to_delete st) (page ++ rest).
Proof.
  induction page as [| m page IH]; intros st Hold Hne; [now contradiction Hne |].
  clear Hne.
  assert (Hnz : (number =? 0) = false) by (apply Z.eqb_neq; lia).
  cbn [scan_page]. rewrite Hnz, orb_false_l, over_age_not_young.
  fold (young ctx m).
  assert (Hnext : forall st1,
    too_old st1 = false -> message st1 = Some m ->
    (forall rest, sweep ctx number check (to_delete st1) (page ++ rest)
                  = sweep ctx number check (to_delete st) ((m :: page) ++ rest)) ->
    exists p1 m' p2,
      m :: page = p1 ++ m' :: p2 /\
      message (scan_page ctx number check page st1) = Some m' /\
      forall rest,
        if too_old (scan_page ctx number check page st1)
        then to_delete (scan_page ctx number check page st1)
             = sweep ctx number check (to_delete st) ((m :: page) ++ rest)
        else sweep ctx number check (to_delete (scan_page ctx number check page st1))
                   (p2 ++ rest)
             = sweep ctx number check (to_delete st) ((m :: page) ++ rest)).
  { intros st1 Hold1 Hmsg Hstep. destruct page as [| m1 page1].
    - exists [], m, []. split; [reflexivity |]. split; [exact Hmsg |].
      intros rest. simpl scan_page. rewrite Hold1. apply (Hstep rest).
    - destruct (IH st1 Hold1 ltac:(discriminate)) as (p1 & m' & p2 & Heq & Hm' & Hrest).
      exists (m :: p1), m', p2. split; [simpl; now rewrite Heq |]. split; [exact Hm' |].
      intros rest. specialize (Hrest rest). rewrite <- Hstep.
      exact Hrest. }
  assert (Hstop : forall st1 : Scan,
    message st1 = Some m ->
    (forall rest,
        if too_old st1
        then to_delete st1 = sweep ctx number check (to_delete st) ((m :: page) ++ rest)
        else sweep ctx number check (to_delete st1) (page ++ rest)
             = sweep ctx number check (to_delete st) ((m :: page) ++ rest)) ->
    exists p1 m' p2,
      m :: page = p1 ++ m' :: p2 /\
      message st1 = Some m' /\
      forall rest,
        if too_old st1
        then to_delete st1 = sweep ctx number check (to_delete st) ((m :: page) ++ rest)
        else sweep ctx number check (to_delete st1) (p2 ++ rest)
             = sweep ctx number check (to_delete st) ((m :: page) ++ rest)).
  { intros st1 Hmsg Hrest. exists [], m, page.
    split; [reflexivity |]. split; [exact Hmsg | exact Hrest]. }
  destruct (Z.ltb_spec (len (to_delete st) - 1) number) as [Hroom | Hfull].
  - apply Z.ltb_lt in Hroom.
    destruct (check m) eqn:Hcheck, (young ctx m) eqn:Hyoung; cbn [andb negb].
    + apply Hnext; trivial. intros rest. simpl. now rewrite Hroom, Hcheck, Hyoung.
    + apply Hstop; [reflexivity |]. intros rest. simpl.
      now rewrite Hroom, Hcheck, Hyoung.
    + destruct (len (to_delete st) >=? number) eqn:Hge.
      * apply Hstop; [reflexivity |]. intros rest. simpl.
        now rewrite Hold, Hroom, Hcheck, Hyoung.
      * apply Hnext; trivial. intros rest. simpl. now rewrite Hroom, Hcheck, Hyoung.
    + apply Hstop; [reflexivity |]. intros rest. simpl.
      now rewrite Hroom, Hcheck, Hyoung.
  - assert (Hge : (len (to_delete st) >=? number) = true)
      by (rewrite Z.geb_leb; apply Z.leb_le; lia).
    assert (Hnoroom : (len (to_delete st) - 1 <? number) = false)
      by (apply Z.ltb_ge; lia).
    rewrite Hge. destruct (young ctx m) eqn:Hyoung; cbn [andb negb].
    + apply Hstop; [reflexivity |]. intros rest. simpl.
      rewrite Hold, Hnoroom. now apply sweep_no_room.
    + apply Hstop; [reflexivity |]. intros rest. simpl. now rewrite Hnoroom.
Qed.

Lemma filter_keeps_order {A} (R : A -> A -> Prop) (p : A -> bool) (l : list A) :
  StronglySorted R l -> StronglySorted R (filter p l).
Proof.
  induction 1 as [| a l Hl IH Ha]; simpl; [constructor |].
  destruct (p a); [| exact IH]. constructor; [exact IH |].
  rewrite Forall_forall in *. intros x Hx. apply filter_In in Hx as [Hx _]. now apply Ha.
Qed.

Lemma filter_narrow {A} (p q : A -> bool) (l : list A) :
  (forall x, p x = true -> q x = true) ->
  filter p (filter q l) = filter p l.
Proof.
  intros Hpq. induction l as [| x l IH]; simpl; [reflexivity |].
  destruct (q x) eqn:Hq; simpl.
  - now rewrite IH.
  - destruct (p x) eqn:Hp; [| exact IH]. apply Hpq in Hp. congruence.
Qed.

(** The messages older than [m], in a list stored newest first, are the
    ones listed after it. *)
Lemma older_than_cut (front : list Message) m back :
  newest_first (front ++ m :: back) ->
  filter (in_range (Some m) None) (front ++ m :: back) = back.
Proof.
  unfold newest_first, in_range. induction front as [| a front IH]; simpl; intros Hs.
  - apply StronglySorted_inv in Hs as [_ Hback].
    rewrite Z.ltb_irrefl. simpl. apply forallb_filter_id. apply forallb_forall.
    rewrite Forall_forall in Hback. intros x Hx. rewrite andb_true_r.
    apply Z.ltb_lt. now apply Hback.
  - apply StronglySorted_inv in Hs as [Hs Ha].
    rewrite Forall_forall in Ha.
    assert (Hm : message_id m < message_id a)
      by (apply Ha; apply in_or_app; right; now left).
    destruct (Z.ltb_spec (message_id a) (message_id m)); [lia |]. simpl. now apply IH.
Qed.

Lemma next_page_range ch before p1 m rest :
  newest_first ch ->
  filter (in_range before None) ch = p1 ++ m :: rest ->
  filter (in_range (Some m) None) ch = rest.
Proof.
  intros Hs Heq.
  assert (Hm : in_range before None m = true).
  { assert (Hin : In m (filter (in_range before None) ch))
      by (rewrite Heq; apply in_or_app; right; now left).
    now apply filter_In in Hin. }
  rewrite <- (filter_narrow (in_range (Some m) None) (in_range before None)).
  - rewrite Heq. apply older_than_cut. rewrite <- Heq. now apply filter_keeps_order.
  - intros x Hx. unfold in_range in *. rewrite andb_true_r in *.
    destruct before as [b |]; [| reflexivity].
    apply Z.ltb_lt in Hx, Hm. apply Z.ltb_lt. lia.
Qed.

Lemma collect_stops_when_too_old history ctx number check limit after fuel before st :
  too_old st = true ->
  collect history ctx number check limit after fuel before st = Some st.
Proof. intros Hold. destruct fuel; simpl; now rewrite Hold. Qed.

Lemma collect_sweep ch ctx number check limit fuel :
  newest_first ch -> 0 < number -> limit <> Some 0%nat ->
  forall before st,
    too_old st = false ->
    (List.length (filter (in_range before None) ch) < fuel)%nat ->
    exists st',
      collect (channel_history ch) ctx number check limit None fuel before st = Some st'
      /\ to_delete st'
         = sweep ctx number check (to_delete st) (filter (in_range before None) ch).
Proof.
  intros Hs Hpos Hlimit.
  induction fuel as [| fuel IH]; intros before st Hold Hfuel; [lia |].
  cbn [collect]. rewrite Hold. cbn [negb andb].
  destruct (len (to_delete st) - 1 <? number) eqn:Hroom;
    [| exists st; split; [reflexivity | now rewrite sweep_no_room]].
  set (range := filter (in_range before None) ch) in *.
  set (st0 := mkScan (to_delete st) false None _).
  assert (Hpage : exists rest,
    range = channel_history ch limit before None ++ rest
    /\ (channel_history ch limit before None = [] -> range = [])).
  { unfold channel_history. fold range. destruct limit as [[| n] |].
    - congruence.
    - exists (skipn (S n) range). split; [now rewrite firstn_skipn |].
      destruct range; [reflexivity | discriminate].
    - exists []. split; [now rewrite app_nil_r | trivial]. }
  destruct Hpage as (rest & Hrange & Hempty).
  destruct (channel_history ch limit before None) as [| m0 page] eqn:Hhist.
  - exists st0. split; [reflexivity |]. simpl. now rewrite Hempty.
  - destruct (scan_sweep ctx number check Hpos (m0 :: page) st0 eq_refl ltac:(discriminate))
      as (p1 & m & p2 & Heq & Hmsg & Hrest).
    rewrite Hmsg. specialize (Hrest rest). rewrite <- Hrange in Hrest.
    destruct (too_old (scan_page ctx number check (m0 :: page) st0)) eqn:Hold1.
    + rewrite collect_stops_when_too_old by exact Hold1.
      eexists. split; [reflexivity | exact Hrest].
    + assert (Hnext : filter (in_range (Some m) None) ch = p2 ++ rest).
      { apply (next_page_range ch before p1 m (p2 ++ rest) Hs).
        fold range. rewrite Hrange, Heq, <- app_assoc. reflexivity. }
      destruct (IH (Some m) (scan_page ctx number check (m0 :: page) st0) Hold1)
        as (st' & Hrun & Hbatch).
      * rewrite Hnext.
        assert (Hlen : List.length range
                       = (List.length p1 + S (List.length (p2 ++ rest)))%nat).
        { rewrite Hrange, Heq, <- app_assoc, length_app. reflexivity. }
        lia.
      * exists st'. split; [exact Hrun |]. rewrite Hbatch, Hnext. exact Hrest.
Qed.

(** X4.  On a channel stored newest first, for a positive count, any check
    and any page size other than zero, scanning back from [before] yields
    the first [number + 1] messages that pass the check among the
    messages older than [before] that precede the first one of fourteen
    days or more. *)
Theorem collect_on_ordered_channel ch ctx number check limit before :
  newest_first ch -> 0 < number -> limit <> Some 0%nat ->
  fst (get_messages_for_deletion ch ctx number check limit before None)
  = firstn (Z.to_nat (number + 1))
           (filter check (take_while (young ctx) (filter (in_range before None) ch))).
Proof.
  intros Hs Hpos Hlimit.
  destruct (collect_sweep ch ctx number check limit (S (List.length ch)) Hs Hpos Hlimit
              before initial eq_refl) as (st & Hrun & Hbatch).
  - pose proof (filter_length_le (in_range before None) ch). lia.
  - unfold get_messages_for_deletion. rewrite Hrun. simpl.
    rewrite Hbatch, sweep_closed_form by (simpl; unfold len; simpl; lia).
    simpl. now rewrite Z.sub_0_r.
Qed.

Lemma collect_on_ordered_channel_witness :
  fst (get_messages_for_deletion Sample.aging Sample.ctx 1 (text_check Sample.ctx "x")
         (Some 1000%nat) (Some Sample.trigger) None)
  = [Sample.day1; Sample.day3].
Proof.
  assert (Hpos : 0 < 1) by lia.
  refine (eq_trans (collect_on_ordered_channel Sample.aging Sample.ctx 1
                      (text_check Sample.ctx "x") (Some 1000%nat) (Some Sample.trigger)
                      _ Hpos _) _).
  - unfold newest_first, Sample.aging.
    repeat (constructor; [| repeat constructor; vm_compute; reflexivity]). constructor.
  - discriminate.
  - vm_compute. reflexivity.
Defined.

(** ** The collector with count zero *)

Lemma take_while_all {A} (p : A -> bool) (l : list A) :
  forallb p l = true -> take_while p l = l.
Proof.
  induction l as [| x l IH]; simpl; [reflexivity |].
  intros H. apply andb_prop in H as [Hx Hl]. now rewrite Hx, IH.
Qed.

Lemma filter_nil_none {A} (p : A -> bool) (l : list A) x :
  filter p l = [] -> In x l -> p x = false.
Proof.
  induction l as [| y l IH]; simpl; [contradiction |].
  destruct (p y) eqn:Hy; [discriminate |].
  intros Hnil [<- | Hx]; [exact Hy | now apply IH].
Qed.

(** With count zero a page is scanned up to its first message of fourteen
    days or more, and every message before it that passes the check joins
    the batch. *)
Lemma scan_unbounded ctx check page : forall st,
  too_old st = false ->
  to_delete (scan_page ctx 0 check page st)
  = to_delete st ++ filter check (take_while (young ctx) page)
  /\ too_old (scan_page ctx 0 check page st) = negb (forallb (young ctx) page).
Proof.
  induction page as [| m page IH]; intros st Hold; cbn [scan_page].
  - simpl. now rewrite app_nil_r.
  - rewrite over_age_not_young. fold (young ctx m). cbn [Z.eqb orb negb andb].
    destruct (young ctx m) eqn:Hyoung; cbn [take_while forallb andb negb].
    + rewrite Hyoung. destruct (check m) eqn:Hcheck; cbn [andb filter].
      * rewrite Hcheck. destruct (IH (mkScan (to_delete st ++ [m]) (too_old st) (Some m)
                                            (steps st ++ [Inspect m])) Hold)
          as [Htd Hto].
        rewrite Htd, Hto. simpl. now rewrite <- app_assoc.
      * rewrite Hcheck. apply (IH (mkScan (to_delete st) (too_old st) (Some m)
                                          (steps st ++ [Inspect m])) Hold).
    + rewrite Hyoung, andb_false_r. simpl. now rewrite app_nil_r.
Qed.

Lemma collect_stops_when_full history ctx number check limit after fuel before st :
  (len (to_delete st) - 1 <? number) = false ->
  collect history ctx number check limit after fuel before st = Some st.
Proof. intros Hfull. destruct fuel; simpl; now rewrite Hfull, andb_false_r. Qed.

Lemma in_range_narrows before after m x :
  in_range before after m = true ->
  in_range (Some m) after x = true ->
  in_range before after x = true.
Proof.
  unfold in_range. intros Hm Hx.
  apply andb_prop in Hm as [Hm _]. apply andb_prop in Hx as [Hx Hafter].
  rewrite Hafter, andb_true_r. destruct before as [b |]; [| reflexivity].
  apply Z.ltb_lt in Hm, Hx. apply Z.ltb_lt. lia.
Qed.

(** Where no message in range passes the check and all are young, the
    batch stays empty however many pages follow. *)
Lemma collect_unbounded_barren ch ctx check limit after fuel : forall before st st',
  (forall x, In x ch -> in_range before after x = true ->
             check x = false /\ young ctx x = true) ->
  to_delete st = [] -> too_old st = false ->
  collect (channel_history ch) ctx 0 check limit after fuel before st = Some st' ->
  to_delete st' = [].
Proof.
  induction fuel as [| fuel IH]; intros before st st' Hbarren Htd Hold Hrun;
    cbn [collect] in Hrun; rewrite Hold, Htd in Hrun; cbn in Hrun; [discriminate |].
  set (page := channel_history ch limit before after) in *.
  set (st0 := mkScan [] false None _) in *.
  assert (Hpage : forall x, In x page -> check x = false /\ young ctx x = true).
  { intros x Hx. apply channel_history_In in Hx as [Hch Hx]. now apply Hbarren. }
  destruct (scan_unbounded ctx check page st0 eq_refl) as [Htd1 Hold1].
  assert (Hall : forallb (young ctx) page = true)
    by (apply forallb_forall; intros x Hx; now apply Hpage).
  assert (Hnone : filter check page = []).
  { clear -Hpage. induction page as [| x page IHp]; [reflexivity |]. simpl.
    destruct (Hpage x (or_introl eq_refl)) as [-> _].
    apply IHp. intros y Hy. apply Hpage. now right. }
  rewrite Hall in Hold1. rewrite take_while_all, Hnone in Htd1 by exact Hall.
  simpl in Htd1, Hold1.
  destruct (message (scan_page ctx 0 check page st0)) as [m |] eqn:Hm.
  - apply (IH (Some m) (scan_page ctx 0 check page st0) st'); trivial.
    apply scan_message in Hm as [Hm | Hm]; [| discriminate].
    apply channel_history_In in Hm as [_ Hm].
    intros x Hch Hx. apply Hbarren; [exact Hch |].
    now apply (in_range_narrows before after m x).
  - now injection Hrun as <-.
Qed.

Lemma collect_unbounded_page ch ctx check before after :
  fst (get_messages_for_deletion ch ctx 0 check None before after)
  = filter check (take_while (young ctx) (channel_history ch None before after)).
Proof.
  destruct (collect_channel_returns ch ctx 0 check None before after)
    as (st & Hrun & ->).
  cbn [fst]. set (page := channel_history ch None before after).
  cbn [collect] in Hrun.
  change (negb (too_old initial) && (len (to_delete initial) - 1 <? 0)) with true
    in Hrun.
  cbv iota in Hrun. fold page in Hrun.
  set (st0 := mkScan (to_delete initial) (too_old initial) None _) in *.
  destruct (scan_unbounded ctx check page st0 eq_refl) as [Htd1 Hold1].
  simpl in Htd1.
  destruct (message (scan_page ctx 0 check page st0)) as [m |] eqn:Hm;
    [| injection Hrun as <-; exact Htd1].
  destruct (too_old (scan_page ctx 0 check page st0)) eqn:Hold.
  { rewrite collect_stops_when_too_old in Hrun by exact Hold.
    injection Hrun as <-. exact Htd1. }
  destruct (to_delete (scan_page ctx 0 check page st0)) as [| m1 td] eqn:Htd.
  - rewrite <- Htd1. symmetry in Hold1. apply negb_false_iff in Hold1.
    rewrite take_while_all in Htd1 by exact Hold1.
    apply (collect_unbounded_barren ch ctx check None after (List.length ch)
             (Some m) (scan_page ctx 0 check page st0) st); trivial.
    intros x Hch Hx. apply scan_message in Hm as [Hm | Hm]; [| discriminate].
    apply channel_history_In in Hm as [_ Hm].
    assert (Hin : In x page).
    { unfold page, channel_history.
      assert (Hf : In x (filter (in_range before after) ch)).
      { apply filter_In. split; [exact Hch |].
        now apply (in_range_narrows before after m x). }
      destruct after; [now apply in_rev in Hf |]; exact Hf. }
    split.
    + now apply (filter_nil_none check page).
    + rewrite forallb_forall in Hold1. now apply Hold1.
  - rewrite collect_stops_when_full in Hrun.
    + injection Hrun as <-. now rewrite Htd.
    + rewrite Htd. apply Z.ltb_ge. unfold len. simpl List.length. lia.
Qed.

(** X5.  With count zero and no page limit, the collector returns the
    messages of the one page [channel.history] yields that pass the check
    and precede the first message of fourteen days or more, in the order
    of the page. *)
Theorem collect_unbounded_whole_page ch ctx check before after :
  fst (get_messages_for_deletion ch ctx 0 check None before after)
  = filter check (take_while (young ctx) (channel_history ch None before after)).
Proof. apply collect_unbounded_page. Qed.

(** A page after a cursor runs from the oldest message on: when that one
    has reached fourteen days, nothing is collected although younger
    messages follow. *)
Example collect_after_old_cursor :
  channel_history Sample.aging None None (Some Sample.day20)
  = [Sample.day15; Sample.day3; Sample.day2; Sample.day1]
  /\ fst (get_messages_for_deletion Sample.aging Sample.ctx 0 (fun _ => true)
            None None (Some Sample.day20)) = [].
Proof. split; vm_compute; reflexivity. Qed.

(** ** Bounds on the batch and on the pages requested *)

(** X1.  For a positive count the batch holds at most one message more
    than requested, for every stored channel, check, page size and
    cursors. *)
Theorem collect_at_most_one_extra ch ctx number check limit before after :
  0 < number ->
  len (fst (get_messages_for_deletion ch ctx number check limit before after))
  <= number + 1.
Proof.
  intros Hpos.
  destruct (collect_channel_returns ch ctx number check limit before after)
    as (st & Hrun & ->).
  simpl. apply (collect_length _ _ _ _ _ _ _ _ _ _ Hpos) in Hrun; [exact Hrun |].
  unfold len. simpl. lia.
Qed.

Lemma collect_at_most_one_extra_witness :
  len (fst (get_messages_for_deletion Sample.aging Sample.ctx 2 (fun _ => true)
              (Some 2%nat) (Some Sample.trigger) None)) <= 2 + 1.
Proof.
  apply (collect_at_most_one_extra Sample.aging Sample.ctx 2 (fun _ => true)
           (Some 2%nat) (Some Sample.trigger) None).
  lia.
Defined.

(** X2.  With a negative count the collector requests no page and returns
    the empty batch; [messages] then logs the negative count and hands the
    empty batch to the deletion executor. *)
Theorem negative_count_collects_nothing w ctx number :
  number < 0 ->
  (forall ch check limit before after,
      get_messages_for_deletion ch ctx number check limit before after = ([], []))
  /\ messages w ctx number
     = ([LogInfo (ctx_author ctx) number;
         if user_bot (bot_user w) then MassPurge [] else SlowDeletion []],
        Done tt).
Proof.
  intros Hneg.
  assert (Hnone : forall ch check limit before after,
    get_messages_for_deletion ch ctx number check limit before after = ([], [])).
  { intros ch check limit before after. unfold get_messages_for_deletion.
    rewrite collect_stops_when_full; [reflexivity |].
    apply Z.ltb_ge. unfold len. simpl. lia. }
  split; [exact Hnone |].
  unfold messages. rewrite confirmed_then_small by lia.
  unfold messages_pipeline. rewrite collect_messages_run, Hnone, bind_done. simpl.
  now destruct (user_bot (bot_user w)).
Qed.

Lemma negative_count_collects_nothing_witness :
  messages (Sample.env Sample.red Sample.recent []) Sample.ctx (-3)
  = ([LogInfo Sample.moderator (-3); MassPurge []], Done tt).
Proof.
  assert (Hneg : -3 < 0) by lia.
  exact (proj2 (negative_count_collects_nothing
                  (Sample.env Sample.red Sample.recent []) Sample.ctx (-3) Hneg)).
Defined.

Lemma page_requests_snoc tr e :
  page_requests (tr ++ [e]) = (page_requests tr + if is_history e then 1 else 0)%nat.
Proof.
  unfold page_requests. rewrite filter_app, length_app. simpl.
  now destruct (is_history e).
Qed.

Lemma scan_page_requests ctx number check page : forall st,
  page_requests (steps (scan_page ctx number check page st)) = page_requests (steps st).
Proof.
  induction page as [| m page IH]; intros st; simpl; [reflexivity |].
  assert (Hseen : page_requests (steps st ++ [Inspect m]) = page_requests (steps st))
    by (rewrite page_requests_snoc; simpl; lia).
  repeat match goal with
  | |- context [if ?b then _ else _] => destruct b
  end; try rewrite IH; exact Hseen.
Qed.

Lemma collect_page_requests ch ctx number check limit after fuel : forall before st st',
  collect (channel_history ch) ctx number check limit after fuel before st = Some st' ->
  (page_requests (steps st') <= page_requests (steps st) + S (remaining ch before))%nat.
Proof.
  induction fuel as [| fuel IH]; intros before st st' Hrun; simpl in Hrun;
    destruct (negb (too_old st) && (len (to_delete st) - 1 <? number));
    try discriminate; try (injection Hrun as <-; lia).
  set (st0 := mkScan _ _ None _) in Hrun.
  assert (Hpages : page_requests
                     (steps (scan_page ctx number check
                               (channel_history ch limit before after) st0))
                   = S (page_requests (steps st))).
  { rewrite scan_page_requests. unfold st0. simpl.
    rewrite page_requests_snoc. simpl. lia. }
  destruct (message (scan_page ctx number check _ st0)) as [m |] eqn:Hm.
  - apply IH in Hrun. rewrite Hpages in Hrun.
    apply scan_message in Hm as [Hm | Hm]; [| discriminate].
    apply remaining_decreases in Hm. lia.
  - injection Hrun as <-. rewrite Hpages. lia.
Qed.

(** X3.  On every stored channel the collector returns after requesting
    at most one page more than there are messages older than [before]:
    each further page starts strictly before the last message it
    inspected. *)
Theorem collect_requests_few_pages ch ctx number check limit before after :
  exists st,
    collect (channel_history ch) ctx number check limit after
            (S (List.length ch)) before initial = Some st
    /\ get_messages_for_deletion ch ctx number check limit before after
       = (to_delete st, steps st)
    /\ (page_requests (steps st)
        <= S (List.length (filter (in_range before None) ch)))%nat.
Proof.
  destruct (collect_channel_returns ch ctx number check limit before after)
    as (st & Hrun & Heq).
  exists st. split; [exact Hrun |]. split; [exact Heq |].
  apply collect_page_requests in Hrun. exact Hrun.
Qed.

(** ** Where the batch comes from *)

Lemma scan_batch_from ctx number check (Q : Message -> Prop) page : forall st,
  Forall Q (to_delete st) -> Forall Q page ->
  Forall Q (to_delete (scan_page ctx number check page st)).
Proof.
  induction page as [| m page IH]; intros st Hst Hpage; simpl; [exact Hst |].
  apply Forall_cons_iff in Hpage as [Hm Hpage].
  repeat match goal with
  | |- context [if ?b then _ else _] => destruct b
  end; try exact Hst; apply IH; trivial.
  simpl. apply Forall_app. split; [exact Hst | now constructor].
Qed.

Lemma collect_batch_from ch ctx number check limit after before0 fuel :
  forall before st st',
    (forall x, in_range before after x = true -> in_range before0 after x = true) ->
    Forall (fun m => In m ch /\ in_range before0 after m = true) (to_delete st) ->
    collect (channel_history ch) ctx number check limit after fuel before st = Some st' ->
    Forall (fun m => In m ch /\ in_range before0 after m = true) (to_delete st').
Proof.
  induction fuel as [| fuel IH]; intros before st st' Hnarrow Hst Hrun; simpl in Hrun;
    destruct (negb (too_old st) && (len (to_delete st) - 1 <? number));
    try discriminate; try (injection Hrun as <-; exact Hst).
  set (st0 := mkScan _ _ None _) in Hrun.
  assert (H1 : Forall (fun m => In m ch /\ in_range before0 after m = true)
                 (to_delete (scan_page ctx number check
                               (channel_history ch limit before after) st0))).
  { apply scan_batch_from; [exact Hst |]. apply Forall_forall. intros x Hx.
    apply channel_history_In in Hx as [Hch Hx]. split; [exact Hch | now apply Hnarrow]. }
  destruct (message (scan_page ctx number check _ st0)) as [m |] eqn:Hm.
  - refine (IH (Some m) _ st' _ H1 Hrun).
    apply scan_message in Hm as [Hm | Hm]; [| discriminate].
    apply channel_history_In in Hm as [_ Hm].
    intros x Hx. apply Hnarrow. now apply (in_range_narrows before after m x).
  - now injection Hrun as <-.
Qed.

Lemma batch_in_range ch ctx number check limit before after m :
  In m (fst (get_messages_for_deletion ch ctx number check limit before after)) ->
  In m ch /\ in_range before after m = true.
Proof.
  intros Hin.
  destruct (collect_channel_returns ch ctx number check limit before after)
    as (st & Hrun & Heq).
  rewrite Heq in Hin. simpl in Hin.
  apply (collect_batch_from ch ctx number check limit after before) in Hrun;
    [| trivial | constructor].
  rewrite Forall_forall in Hrun. exact (Hrun m Hin).
Qed.

Lemma collected_before_trigger ch ctx number check limit after m :
  In m (fst (get_messages_for_deletion ch ctx number check limit
               (Some (ctx_message ctx)) after)) ->
  message_eq m (ctx_message ctx) = false.
Proof.
  intros Hin. apply batch_in_range in Hin as [_ Hrange].
  unfold in_range in Hrange. apply andb_prop in Hrange as [Hlt _].
  unfold message_eq. apply Z.ltb_lt in Hlt. apply Z.eqb_neq. lia.
Qed.

(** X6.  Every message of the batch is a message of the channel that lies
    strictly between the cursors: older than [before] and newer than
    [after].  Scanning back from the command message therefore never
    collects the command message itself. *)
Theorem batch_lies_between_cursors ch ctx number check limit before after m :
  In m (fst (get_messages_for_deletion ch ctx number check limit before after)) ->
  In m ch
  /\ in_range before after m = true
  /\ (before = Some (ctx_message ctx) -> message_eq m (ctx_message ctx) = false).
Proof.
  intros Hin.
  destruct (collect_channel_returns ch ctx number check limit before after)
    as (st & Hrun & Heq).
  rewrite Heq in Hin. simpl in Hin.
  apply (collect_batch_from ch ctx number check limit after before) in Hrun;
    [| trivial | constructor].
  rewrite Forall_forall in Hrun. destruct (Hrun m Hin) as [Hch Hrange].
  split; [exact Hch |]. split; [exact Hrange |].
  intros ->. unfold in_range in Hrange. apply andb_prop in Hrange as [Hlt _].
  unfold message_eq. apply Z.ltb_lt in Hlt. apply Z.eqb_neq. lia.
Qed.

Lemma batch_lies_between_cursors_witness :
  In Sample.day3 Sample.aging
  /\ in_range (Some Sample.trigger) None Sample.day3 = true
  /\ (Some Sample.trigger = Some (ctx_message Sample.ctx) ->
      message_eq Sample.day3 (ctx_message Sample.ctx) = false).
Proof.
  apply (batch_lies_between_cursors Sample.aging Sample.ctx 10
           (text_check Sample.ctx "x") (Some 1000%nat) (Some Sample.trigger) None).
  vm_compute. right. left. reflexivity.
Defined.

(** ** The shape of a bounded subcommand *)

Lemma scan_step_not_log e : is_scan_step e = true -> is_log e = false.
Proof. destruct e; simpl; congruence. Qed.

(** Once confirmed, a bounded subcommand collects with its check, writes
    one log entry and hands one batch over; [user] instead raises when it
    was given an unresolved id. *)
Lemma pipeline_normal_form w ctx c number :
  match result (command_check w ctx c) with
  | Done chk =>
      let run := get_messages_for_deletion (channel w) ctx number chk
                   (Some 1000%nat) (Some (ctx_message ctx)) None in
      let batch := handed_batch w ctx c (fst run) in
      pipeline w ctx c number
      = if member_unbound w c
        then (snd run, Raised (UnboundLocalError "member"))
        else (snd run ++ [LogInfo (ctx_author ctx) (logged_count c number batch);
                          if uses_bulk w ctx c then MassPurge batch
                          else SlowDeletion batch],
              Done tt)
  | Raised e => pipeline w ctx c number = ([], Raised e)
  | Waiting => False
  end.
Proof.
  destruct c as [t | u | | | p]; cbn [command_check pipeline].
  - cbn. unfold text_pipeline, uses_bulk.
    rewrite collect_messages_run, bind_done. cbn.
    rewrite andb_true_r. now destruct (user_bot (bot_user w)).
  - unfold resolve_user, member_unbound.
    destruct (convert_member w u) as [member |].
    + rewrite !bind_ret_l. cbn. unfold user_pipeline, uses_bulk.
      rewrite collect_messages_run, bind_done. cbn.
      rewrite andb_true_r. now destruct (user_bot (bot_user w)).
    + destruct (int_of_str w u) as [_id |]; [| reflexivity].
      rewrite !bind_ret_l. cbn. unfold user_pipeline.
      rewrite collect_messages_run, bind_done. cbn. now rewrite app_nil_r.
  - cbn. unfold messages_pipeline, uses_bulk.
    rewrite collect_messages_run, bind_done. cbn.
    rewrite andb_true_r. now destruct (user_bot (bot_user w)).
  - cbn. unfold bot_pipeline, uses_bulk.
    rewrite collect_messages_run, bind_done. cbn.
    rewrite andb_true_r. now destruct (user_bot (bot_user w)).
  - unfold self_pipeline.
    destruct (content_match_result w p) as [[matches Hm] | Hm]; rewrite Hm.
    + rewrite !bind_ret_l. cbn. unfold uses_bulk.
      rewrite collect_messages_run, bind_done. cbn. unfold ctx_author.
      now destruct (user_bot (bot_user w)
                    && (if author_is_member ctx then me_manage_messages ctx else false)).
    + reflexivity.
Qed.

Lemma confirmed_then_form w ctx number rest :
  exists gate,
    Forall (fun e => is_deletion e = false /\ is_log e = false) gate
    /\ (trace (confirmed_then w ctx number rest) = gate ++ trace rest
        \/ trace (confirmed_then w ctx number rest) = gate).
Proof.
  unfold confirmed_then. destruct (number >? 100).
  - rewrite check_100_plus_run.
    destruct (first_response w ctx) as [[t response] |].
    + destruct (Str.startswith (Str.lower (content response)) "y").
      * exists [Send (ConfirmPrompt number); WaitFor None].
        split; [now repeat constructor |]. left. now rewrite bind_done.
      * exists [Send (ConfirmPrompt number); WaitFor None; Send Cancelled].
        split; [now repeat constructor |]. right. now rewrite bind_done.
    + exists [Send (ConfirmPrompt number); WaitFor None].
      split; [now repeat constructor | now right].
  - exists []. split; [constructor | now left].
Qed.

(** A run of a bounded subcommand: steps that neither log nor delete,
    then, when the command gets that far, the log entry and the deletion
    step. *)
Lemma run_bounded_form w ctx c number :
  exists quiet,
    Forall (fun e => is_deletion e = false /\ is_log e = false) quiet
    /\ (trace (run_bounded w ctx c number) = quiet
        \/ exists chk,
             result (command_check w ctx c) = Done chk
             /\ trace (run_bounded w ctx c number)
                = quiet
                  ++ [LogInfo (ctx_author ctx)
                        (logged_count c number
                           (handed_batch w ctx c
                              (fst (get_messages_for_deletion (channel w) ctx number chk
                                      (Some 1000%nat) (Some (ctx_message ctx)) None))));
                      if uses_bulk w ctx c
                      then MassPurge
                             (handed_batch w ctx c
                                (fst (get_messages_for_deletion (channel w) ctx number chk
                                        (Some 1000%nat) (Some (ctx_message ctx)) None)))
                      else SlowDeletion
                             (handed_batch w ctx c
                                (fst (get_messages_for_deletion (channel w) ctx number chk
                                        (Some 1000%nat) (Some (ctx_message ctx)) None)))]).
Proof.
  destruct (arguments_ok w c) eqn:Hok.
  - rewrite (run_bounded_gate w ctx c number Hok).
    destruct (confirmed_then_form w ctx number (pipeline w ctx c number))
      as (gate & Hgate & [Hrun | Hrun]); rewrite Hrun;
      [| exists gate; split; [exact Hgate | now left]].
    pose proof (pipeline_normal_form w ctx c number) as Hform.
    destruct (result (command_check w ctx c)) as [chk | e |] eqn:Hchk;
      [| | contradiction].
    + cbv zeta in Hform.
      pose proof (get_messages_for_deletion_steps (channel w) ctx number chk
                    (Some 1000%nat) (Some (ctx_message ctx)) None) as Hsteps.
      assert (Hquiet : Forall (fun e => is_deletion e = false /\ is_log e = false)
                         (gate ++ snd (get_messages_for_deletion (channel w) ctx number
                                         chk (Some 1000%nat) (Some (ctx_message ctx))
                                         None))).
      { apply Forall_app. split; [exact Hgate |].
        eapply Forall_impl; [| exact Hsteps]. intros e He.
        split; [now apply scan_step_not_deletion | now apply scan_step_not_log]. }
      eexists. split; [exact Hquiet |]. rewrite Hform.
      destruct (member_unbound w c); [now left |].
      right. exists chk. split; [reflexivity |]. cbn [trace fst]. now rewrite app_assoc.
    + exists gate. split; [exact Hgate |]. left. rewrite Hform. cbn. now rewrite app_nil_r.
  - exists []. split; [constructor |]. left.
    destruct c as [t | u | | | p]; try discriminate Hok. cbn in *.
    unfold user, resolve_user.
    destruct (convert_member w u); [discriminate |].
    now destruct (int_of_str w u).
Qed.

Lemma marked_step_is_last {A} (P : A -> bool) (quiet : list A) d pre e post :
  Forall (fun x => P x = false) quiet ->
  quiet ++ [d] = pre ++ e :: post ->
  P e = true ->
  post = [] /\ pre = quiet /\ e = d.
Proof.
  intros Hquiet Heq He. destruct post as [| z post _] using rev_ind.
  - change (pre ++ [e]) with (pre ++ [e]) in Heq.
    apply app_inj_tail in Heq as [-> ->]. auto.
  - exfalso. change (pre ++ e :: post ++ [z]) with (pre ++ (e :: post) ++ [z]) in Heq.
    rewrite app_assoc in Heq. apply app_inj_tail in Heq as [-> _].
    rewrite Forall_forall in Hquiet.
    rewrite (Hquiet e) in He; [discriminate |]. apply in_or_app. right. now left.
Qed.

(** X7.  In every run of [text], [user], [messages], [bot] or [self], a
    deletion step is the last step of the run, the step right before it
    is the log entry for the invoking author, and no deletion step
    precedes it: a batch is logged before it is handed over, and at most
    one batch is handed over. *)
Theorem deletion_is_logged_and_last w ctx c number pre e post :
  trace (run_bounded w ctx c number) = pre ++ e :: post ->
  is_deletion e = true ->
  post = []
  /\ exists earlier count,
       pre = earlier ++ [LogInfo (ctx_author ctx) count]
       /\ Forall (fun x => is_deletion x = false) earlier.
Proof.
  intros Hrun He.
  destruct (run_bounded_form w ctx c number) as (quiet & Hquiet & [Hform | Hform]).
  - exfalso. rewrite Hform in Hrun. rewrite Forall_forall in Hquiet.
    destruct (Hquiet e) as [Hd _]; [| congruence].
    rewrite Hrun. apply in_or_app. right. now left.
  - destruct Hform as (chk & _ & Hform). rewrite Hform in Hrun.
    change (quiet ++ [?l; ?d]) with (quiet ++ [l] ++ [d]) in Hrun.
    rewrite app_assoc in Hrun.
    apply (marked_step_is_last is_deletion) in Hrun as (-> & -> & _); trivial.
    + split; [reflexivity |]. eexists quiet, _. split; [reflexivity |].
      eapply Forall_impl; [| exact Hquiet]. now intros x [Hx _].
    + apply Forall_app. split; [| now repeat constructor].
      eapply Forall_impl; [| exact Hquiet]. now intros x [Hx _].
Qed.

Lemma deletion_is_logged_and_last_witness :
  @nil Event = []
  /\ exists earlier count,
       [History (Some 1000%nat) (Some Sample.trigger) None;
        Inspect Sample.newest; Inspect Sample.older; LogInfo Sample.moderator 1]
       = earlier ++ [LogInfo (ctx_author Sample.ctx) count]
       /\ Forall (fun x => is_deletion x = false) earlier.
Proof.
  apply (deletion_is_logged_and_last (Sample.env Sample.red Sample.recent [])
           Sample.ctx CleanupMessages 1 _ (MassPurge [Sample.newest; Sample.older]) []);
    reflexivity.
Defined.

Lemma run_bounded_steps w ctx c number e :
  In e (trace (run_bounded w ctx c number)) ->
  (is_deletion e = true \/ is_log e = true) ->
  exists chk,
    result (command_check w ctx c) = Done chk
    /\ let batch :=
         handed_batch w ctx c
           (fst (get_messages_for_deletion (channel w) ctx number chk
                   (Some 1000%nat) (Some (ctx_message ctx)) None)) in
       (e = LogInfo (ctx_author ctx) (logged_count c number batch)
        \/ e = (if uses_bulk w ctx c then MassPurge batch else SlowDeletion batch))
       /\ In (if uses_bulk w ctx c then MassPurge batch else SlowDeletion batch)
             (trace (run_bounded w ctx c number)).
Proof.
  intros Hin Hkind.
  destruct (run_bounded_form w ctx c number) as (quiet & Hquiet & [Hform | Hform]).
  - exfalso. rewrite Hform in Hin. rewrite Forall_forall in Hquiet.
    destruct (Hquiet e Hin) as [Hd Hl]. destruct Hkind; congruence.
  - destruct Hform as (chk & Hchk & Hform). exists chk. split; [exact Hchk |].
    cbv zeta. rewrite Hform in *. split.
    + apply in_app_or in Hin as [Hin | [<- | [<- | []]]]; auto.
      exfalso. rewrite Forall_forall in Hquiet.
      destruct (Hquiet e Hin) as [Hd Hl]. destruct Hkind; congruence.
    + apply in_or_app. right. right. now left.
Qed.

(** X8.  A bounded subcommand hands its batch to the bulk executor only
    when the bot runs on a bot account, and for [self] only when the
    author is a guild member and the bot may manage messages in the
    channel; in every other case the batch goes to the sequential
    executor.  A run that ends normally, with a count that needed no
    confirmation or was confirmed, does hand a batch over, to the
    executor these conditions select. *)
Theorem deletion_strategy w ctx c number batch :
  (In (MassPurge batch) (trace (run_bounded w ctx c number)) ->
   user_bot (bot_user w) = true
   /\ forall p, c = CleanupSelf p ->
                author_is_member ctx = true /\ me_manage_messages ctx = true)
  /\ (In (SlowDeletion batch) (trace (run_bounded w ctx c number)) ->
      user_bot (bot_user w) = false
      \/ exists p, c = CleanupSelf p
                   /\ (author_is_member ctx = false \/ me_manage_messages ctx = false))
  /\ (result (run_bounded w ctx c number) = Done tt ->
      (number <= 100
       \/ exists t response,
            first_response w ctx = Some (t, response)
            /\ starts_with_y (content response)) ->
      exists handed,
        In (if (user_bot (bot_user w)
                && match c with
                   | CleanupSelf _ => author_is_member ctx && me_manage_messages ctx
                   | _ => true
                   end)%bool
            then MassPurge handed else SlowDeletion handed)
           (trace (run_bounded w ctx c number))).
Proof.
  split; [| split].
  - intros Hin.
    destruct (run_bounded_steps w ctx c number _ Hin (or_introl eq_refl))
      as (chk & _ & [Hlog | Hdel] & _); try discriminate Hlog.
    unfold uses_bulk in Hdel.
    destruct (user_bot (bot_user w)); cbn [andb] in Hdel; try discriminate Hdel.
    split; [reflexivity |]. intros p ->.
    destruct (author_is_member ctx), (me_manage_messages ctx);
      try discriminate Hdel; auto.
  - intros Hin.
    destruct (run_bounded_steps w ctx c number _ Hin (or_introl eq_refl))
      as (chk & _ & [Hlog | Hdel] & _); try discriminate Hlog.
    unfold uses_bulk in Hdel.
    destruct (user_bot (bot_user w)); cbn [andb] in Hdel; try discriminate Hdel; auto.
    right. destruct c as [t | u | | | p]; try discriminate Hdel.
    exists p. split; [reflexivity |].
    destruct (author_is_member ctx), (me_manage_messages ctx);
      try discriminate Hdel; auto.
  - intros Hdone Hgo.
    assert (Hok : arguments_ok w c = true).
    { destruct (arguments_ok w c) eqn:Hok; [reflexivity |]. exfalso.
      destruct c as [t | u | | | p]; try discriminate Hok. cbn in Hok, Hdone.
      unfold user, resolve_user in Hdone.
      destruct (convert_member w u); [discriminate |].
      destruct (int_of_str w u); discriminate. }
    assert (Hrun : exists gate,
      run_bounded w ctx c number
      = (gate ++ trace (pipeline w ctx c number), result (pipeline w ctx c number))).
    { rewrite (run_bounded_gate w ctx c number Hok).
      destruct Hgo as [Hle | (t & response & Hfirst & Hyes)].
      - exists []. rewrite confirmed_then_small by exact Hle.
        now destruct (pipeline w ctx c number).
      - destruct (Z.le_gt_cases number 100) as [Hle | Hgt].
        + exists []. rewrite confirmed_then_small by exact Hle.
          now destruct (pipeline w ctx c number).
        + exists [Send (ConfirmPrompt number); WaitFor None].
          now apply confirmed_then_yes with (t := t) (response := response). }
    destruct Hrun as (gate & Hrun). rewrite Hrun in Hdone |- *. cbn [result snd] in Hdone.
    pose proof (pipeline_normal_form w ctx c number) as Hform.
    destruct (result (command_check w ctx c)) as [chk | e |];
      [| rewrite Hform in Hdone; discriminate Hdone | contradiction].
    cbv zeta in Hform. rewrite Hform in Hdone |- *.
    destruct (member_unbound w c); [discriminate Hdone |].
    eexists. cbn [trace fst]. apply in_or_app. right. apply in_or_app. right.
    right. left.
    unfold uses_bulk.
    destruct c, (user_bot (bot_user w)), (author_is_member ctx),
      (me_manage_messages ctx); reflexivity.
Qed.

Lemma deletion_strategy_witness :
  (user_bot (bot_user (Sample.env Sample.red Sample.recent [])) = true
   /\ forall p, CleanupMessages = CleanupSelf p ->
                author_is_member Sample.ctx = true
                /\ me_manage_messages Sample.ctx = true)
  /\ (user_bot (bot_user (Sample.env Sample.selfbot [] [])) = false
      \/ exists p, CleanupSelf (Some Sample.quoted) = CleanupSelf p
                   /\ (author_is_member Sample.self_ctx = false
                       \/ me_manage_messages Sample.self_ctx = false))
  /\ exists handed,
       In (SlowDeletion handed)
          (trace (run_bounded (Sample.env Sample.selfbot [] []) Sample.self_ctx
                    (CleanupSelf (Some Sample.quoted)) 1)).
Proof.
  assert (Hsmall : 1 <= 100) by lia.
  split; [| split].
  - apply (proj1 (deletion_strategy (Sample.env Sample.red Sample.recent [])
                    Sample.ctx CleanupMessages 1 [Sample.newest; Sample.older])).
    vm_compute. do 4 right. left. reflexivity.
  - apply (proj1 (proj2 (deletion_strategy (Sample.env Sample.selfbot [] [])
                           Sample.self_ctx (CleanupSelf (Some Sample.quoted)) 1
                           [Sample.self_trigger]))).
    vm_compute. right. right. left. reflexivity.
  - exact (proj2 (proj2 (deletion_strategy (Sample.env Sample.selfbot [] [])
                           Sample.self_ctx (CleanupSelf (Some Sample.quoted)) 1 []))
             eq_refl (or_introl Hsmall)).
Defined.

(** X9.  Whenever a bounded subcommand writes its log entry, the entry
    names the invoking author and a batch is handed over in the same run.
    The count logged is the size of that batch, except for [messages],
    which logs the requested number whatever the size of the batch. *)
Theorem logged_count_and_batch w ctx c number actor count :
  In (LogInfo actor count) (trace (run_bounded w ctx c number)) ->
  actor = ctx_author ctx
  /\ exists batch,
       handed_over (trace (run_bounded w ctx c number)) batch
       /\ (c = CleanupMessages -> count = number)
       /\ (c <> CleanupMessages -> count = len batch).
Proof.
  intros Hin.
  destruct (run_bounded_steps w ctx c number _ Hin (or_intror eq_refl))
    as (chk & _ & [Hlog | Hdel] & Hover).
  - injection Hlog as -> ->. split; [reflexivity |].
    eexists. split.
    + unfold handed_over. destruct (uses_bulk w ctx c); [left | right]; exact Hover.
    + split; [now intros -> |]. intros Hc. destruct c; try reflexivity. congruence.
  - destruct (uses_bulk w ctx c); discriminate Hdel.
Qed.

Lemma logged_count_and_batch_witness :
  Sample.moderator = ctx_author Sample.ctx
  /\ exists batch,
       handed_over (trace (run_bounded (Sample.env Sample.red Sample.recent [])
                             Sample.ctx CleanupMessages 1)) batch
       /\ (CleanupMessages = CleanupMessages -> 1 = 1)
       /\ (CleanupMessages <> CleanupMessages -> 1 = len batch).
Proof.
  apply (logged_count_and_batch (Sample.env Sample.red Sample.recent [])
           Sample.ctx CleanupMessages 1 Sample.moderator 1).
  vm_compute. do 3 right. left. reflexivity.
Defined.

(** X10.  The command message is part of a batch handed over only through
    the explicit append of [self] when its author is the bot: the
    messages collected by scanning back from the command message never
    include it, so the clause of the checks of [text], [user] and [bot]
    that accepts the command message never adds a message. *)
Theorem trigger_enters_batch_only_by_self w ctx c number batch m :
  handed_over (trace (run_bounded w ctx c number)) batch ->
  In m batch ->
  message_eq m (ctx_message ctx) = true ->
  m = ctx_message ctx
  /\ user_eq (ctx_author ctx) (bot_user w) = true
  /\ exists p, c = CleanupSelf p.
Proof.
  intros Hover Hin Hm.
  assert (Hstep : exists e, In e (trace (run_bounded w ctx c number))
                            /\ is_deletion e = true
                            /\ (e = MassPurge batch \/ e = SlowDeletion batch)).
  { destruct Hover as [H | H]; eexists; (split; [exact H |]); split; auto. }
  destruct Hstep as (e & He & Hd & Hbatch).
  destruct (run_bounded_steps w ctx c number e He (or_introl Hd))
    as (chk & _ & [Hlog | Hdel] & _);
    [rewrite Hlog in Hd; discriminate Hd |].
  assert (Hshape : batch = handed_batch w ctx c
                             (fst (get_messages_for_deletion (channel w) ctx number chk
                                     (Some 1000%nat) (Some (ctx_message ctx)) None))).
  { destruct (uses_bulk w ctx c), Hbatch as [-> | ->]; congruence. }
  rewrite Hshape in Hin. unfold handed_batch, ctx_author in *.
  assert (Hnot : forall x,
    In x (fst (get_messages_for_deletion (channel w) ctx number chk
                 (Some 1000%nat) (Some (ctx_message ctx)) None)) ->
    message_eq x (ctx_message ctx) = true -> False).
  { intros x Hx Heq. apply collected_before_trigger in Hx. congruence. }
  destruct c as [t | u | | | p]; try (exfalso; exact (Hnot m Hin Hm)).
  destruct (user_eq (author (ctx_message ctx)) (bot_user w));
    [| exfalso; exact (Hnot m Hin Hm)].
  apply in_app_or in Hin as [Hin | [<- | []]]; [exfalso; exact (Hnot m Hin Hm) |].
  split; [reflexivity |]. split; [reflexivity | now exists p].
Qed.

Lemma trigger_enters_batch_only_by_self_witness :
  Sample.self_trigger = ctx_message Sample.self_ctx
  /\ user_eq (ctx_author Sample.self_ctx)
             (bot_user (Sample.env Sample.selfbot [] [])) = true
  /\ exists p, CleanupSelf (Some Sample.quoted) = CleanupSelf p.
Proof.
  apply (trigger_enters_batch_only_by_self (Sample.env Sample.selfbot [] [])
           Sample.self_ctx (CleanupSelf (Some Sample.quoted)) 1
           [Sample.self_trigger] Sample.self_trigger).
  - right. vm_compute. right. right. left. reflexivity.
  - left. reflexivity.
  - reflexivity.
Defined.

(** ** The confirmation step and the arriving messages *)

Lemma first_response_skips w ctx others arrivals :
  Forall (fun a => author_check ctx (snd a) = false) others ->
  first_response (set_incoming w (others ++ arrivals)) ctx
  = first_response (set_incoming w arrivals) ctx.
Proof.
  unfold first_response. simpl. induction 1 as [| a others Ha _ IH]; simpl;
    [reflexivity |]. now rewrite Ha.
Qed.

(** X11.  The confirmation step is decided by the first arriving message
    of the invoking author alone: messages of other authors that arrive
    before it, and whatever arrives after it, change nothing. *)
Theorem confirmation_reads_first_author_message w ctx number others t response later :
  Forall (fun a => author_check ctx (snd a) = false) others ->
  author_check ctx response = true ->
  check_100_plus (set_incoming w (others ++ (t, response) :: later)) ctx number
  = check_100_plus (set_incoming w [(t, response)]) ctx number.
Proof.
  intros Hothers Hauthor. rewrite !check_100_plus_run.
  rewrite first_response_skips by exact Hothers.
  unfold first_response. simpl. now rewrite Hauthor.
Qed.

Lemma confirmation_reads_first_author_message_witness :
  check_100_plus
    (set_incoming (Sample.env Sample.red Sample.recent [])
       ([(1%nat, Sample.chatter "yes")]
        ++ (2%nat, Sample.reply "nope") :: [(3%nat, Sample.reply "yes")]))
    Sample.ctx 150
  = check_100_plus
      (set_incoming (Sample.env Sample.red Sample.recent [])
         [(2%nat, Sample.reply "nope")])
      Sample.ctx 150.
Proof.
  apply (confirmation_reads_first_author_message
           (Sample.env Sample.red Sample.recent []) Sample.ctx 150
           [(1%nat, Sample.chatter "yes")] 2%nat (Sample.reply "nope")
           [(3%nat, Sample.reply "yes")]).
  - repeat constructor.
  - reflexivity.
Defined.

(** ** [after] *)

(** X12.  On a bot account [after] looks the message up first.  When the
    lookup fails the error is passed on, and when it yields nothing the
    notice is sent; in both cases nothing is collected or deleted.  When
    the message is found, [after] logs and bulk-deletes the messages newer
    than it, from the oldest one up to the first one of fourteen days or
    more. *)
Theorem after_on_bot_account w ctx id :
  user_bot (bot_user w) = true ->
  match get_message w id with
  | Done (Some cursor) =>
      let run := get_messages_for_deletion (channel w) ctx 0 (fun _ => true)
                   None None (Some cursor) in
      after w ctx id
      = (GetMessage id :: snd run
           ++ [LogInfo (ctx_author ctx) (len (fst run)); MassPurge (fst run)],
         Done tt)
      /\ fst run
         = take_while (young ctx) (rev (filter (in_range None (Some cursor)) (channel w)))
  | Done None => after w ctx id = ([GetMessage id; Send MessageNotFound], Done tt)
  | Raised e => after w ctx id = ([GetMessage id], Raised e)
  | Waiting => after w ctx id = ([GetMessage id], Waiting)
  end.
Proof.
  intros Hbot. unfold after. rewrite Hbot. cbn [negb].
  destruct (get_message w id) as [[cursor |] | e |]; try reflexivity.
  split.
  - cbn. rewrite collect_messages_run. cbn.
    destruct (get_messages_for_deletion (channel w) ctx 0 (fun _ => true)
                None None (Some cursor)) as [batch tr].
    reflexivity.
  - rewrite collect_unbounded_page. unfold channel_history.
    induction (take_while (young ctx)
                 (rev (filter (in_range None (Some cursor)) (channel w))))
      as [| x l IH]; simpl; [reflexivity | now rewrite IH].
Qed.

Lemma after_on_bot_account_witness :
  fst (get_messages_for_deletion Sample.aging Sample.ctx 0 (fun _ => true)
         None None (Some Sample.day3))
  = take_while (young Sample.ctx)
      (rev (filter (in_range None (Some Sample.day3)) Sample.aging)).
Proof.
  exact (proj2 (after_on_bot_account
                  (mkEnv Sample.red Sample.aging [] (fun _ => None) Sample.decimal
                         (inr ["!"%string]) (fun _ => false)
                         (fun _ => Done (Some Sample.day3)) (fun _ => None))
                  Sample.ctx 23 eq_refl)).
Defined.

(** ** The prefixes of [bot] *)

Lemma startswith_empty c : Str.startswith c "" = true.
Proof. unfold Str.startswith. now destruct c. Qed.

Lemma list_remove_empty l :
  existsb (String.eqb "") l = true ->
  filter Str.truthy (list_remove "" l) = filter Str.truthy l
  /\ count_occ string_dec (list_remove "" l) ""%string
     = pred (count_occ string_dec l ""%string).
Proof.
  induction l as [| p l IH]; simpl; [discriminate |].
  destruct p as [| a p]; simpl.
  - intros _. split; reflexivity.
  - intros Hex. destruct (IH Hex) as [Hf Hc]. split; [now rewrite Hf |].
    destruct (string_dec (String a p) ""); [discriminate | exact Hc].
Qed.

Lemma no_empty_prefix l :
  existsb (String.eqb "") l = false -> count_occ string_dec l ""%string = 0%nat.
Proof.
  induction l as [| p l IH]; simpl; [reflexivity |].
  destruct p as [| a p]; simpl; [discriminate |].
  intros Hex. destruct (string_dec (String a p) ""); [discriminate | now apply IH].
Qed.

(** X13.  From the prefixes the bot reports, [bot] drops one empty prefix
    and nothing else: the non-empty prefixes keep their order, and an
    empty prefix is left exactly when it was listed more than once.  An
    empty prefix that is left hides every prefix listed after it. *)
Theorem prefixes_lose_one_empty w :
  let raw := match get_prefix w with inl p => [p] | inr l => l end in
  filter Str.truthy (command_prefixes w) = filter Str.truthy raw
  /\ count_occ string_dec (command_prefixes w) ""%string
     = pred (count_occ string_dec raw ""%string)
  /\ forall ctx front back m,
       bot_check w ctx (front ++ ""%string :: back) m
       = bot_check w ctx (front ++ [""%string]) m.
Proof.
  cbv zeta. unfold command_prefixes.
  set (raw := match get_prefix w with inl p => [p] | inr l => l end).
  split; [| split].
  - destruct (existsb (String.eqb "") raw) eqn:Hex; [| reflexivity].
    now apply list_remove_empty.
  - destruct (existsb (String.eqb "") raw) eqn:Hex.
    + now apply list_remove_empty.
    + now rewrite no_empty_prefix.
  - intros ctx front back m. unfold bot_check, find_prefix.
    assert (Hfind : find (Str.startswith (content m)) (front ++ ""%string :: back)
                    = find (Str.startswith (content m)) (front ++ [""%string])).
    { induction front as [| p front IH]; simpl.
      - now rewrite startswith_empty.
      - now destruct (Str.startswith (content m) p). }
    now rewrite Hfind.
Qed.

Lemma prefix_cons a b s s' :
  String.prefix (String a s) (String b s')
  = if ascii_dec a b then String.prefix s s' else false.
Proof. reflexivity. Qed.

Lemma command_name_no_space p c : Str.contains " " (command_name p c) = false.
Proof.
  unfold command_name. induction (Str.drop (String.length p) c) as [| a s IH];
    [reflexivity |].
  cbn [Str.first_word]. destruct (Ascii.eqb_spec a " ") as [-> | Hne]; [reflexivity |].
  cbn [Str.contains]. rewrite prefix_cons, IH.
  destruct (ascii_dec " " a) as [<- | _]; [congruence | reflexivity].
Qed.

(** X14.  When the check of [bot] accepts a message that is neither the
    bot's own nor the command message, some listed non-empty prefix opens
    its content, no prefix listed earlier does, and the text between that
    prefix and the first space, which holds no space, names a registered
    command. *)
Theorem bot_check_accepts_commands w ctx prefixes m :
  bot_check w ctx prefixes m = true ->
  user_id (author m) <> user_id (bot_user w) ->
  message_eq m (ctx_message ctx) = false ->
  exists front p back,
    prefixes = front ++ p :: back
    /\ p <> ""%string
    /\ Str.startswith (content m) p = true
    /\ (forall q, In q front -> Str.startswith (content m) q = false)
    /\ get_command w (command_name p (content m)) = true
    /\ Str.contains " " (command_name p (content m)) = false.
Proof.
  intros Hcheck Hauthor Htrigger. unfold bot_check in Hcheck.
  apply Z.eqb_neq in Hauthor. rewrite Hauthor, Htrigger in Hcheck.
  destruct (find_prefix prefixes (content m)) as [p |] eqn:Hfind; [| discriminate].
  destruct (find_prefix_first prefixes (content m) p Hfind)
    as (front & back & Heq & Hp & Hfront).
  exists front, p, back. split; [exact Heq |].
  destruct p as [| a p]; [discriminate Hcheck |].
  split; [discriminate |]. split; [exact Hp |]. split; [exact Hfront |].
  split; [exact Hcheck | apply command_name_no_space].
Qed.

Lemma bot_check_accepts_commands_witness :
  exists front p back,
    ["!!"; "!"]%string = front ++ p :: back
    /\ p <> ""%string
    /\ Str.startswith "!!help me" p = true
    /\ (forall q, In q front -> Str.startswith "!!help me" q = false)
    /\ (fun name => String.eqb name "help") (command_name p "!!help me") = true
    /\ Str.contains " " (command_name p "!!help me") = false.
Proof.
  apply (bot_check_accepts_commands
           (mkEnv Sample.red [] [] (fun _ => None) Sample.decimal
                  (inr ["!!"; "!"]%string) (fun name => String.eqb name "help")
                  (fun _ => Raised NotFound) (fun _ => None))
           Sample.ctx ["!!"; "!"]%string
           (mkMessage 50 Sample.moderator "!!help me" (Sample.day 29))).
  - reflexivity.
  - discriminate.
  - reflexivity.
Defined.

(** * The instance manager *)

(** ** Reading a choice and a name from the console *)

(** X15.  [get_storage_type] returns 1 or 2, a key of [storage_dict]: it
    is what [int] makes of the first line that is one of the two choices,
    every line before it is asked again for, and the lines after it are
    left on the console.  It never exits, and fails only when the console
    ends before a valid choice. *)
Theorem get_storage_type_first_valid int inputs :
  match Setup.get_storage_type int inputs with
  | (Setup.Returned storage, rest) =>
      (storage = 1 \/ storage = 2)
      /\ Setup.storage_dict storage <> None
      /\ exists skipped line,
           inputs = skipped ++ line :: rest
           /\ int line = Some storage
           /\ Forall (Setup.rejected_choice int) skipped
  | (Setup.Failed e, rest) =>
      e = Setup.EOFError /\ rest = [] /\ Forall (Setup.rejected_choice int) inputs
  | (Setup.Exited _, _) => False
  end.
Proof.
  induction inputs as [| line inputs IH]; simpl; [repeat split; constructor |].
  assert (Hskip : Setup.rejected_choice int line ->
    match Setup.get_storage_type int inputs with
    | (Setup.Returned storage, rest) =>
        (storage = 1 \/ storage = 2)
        /\ Setup.storage_dict storage <> None
        /\ exists skipped line0,
             line :: inputs = skipped ++ line0 :: rest
             /\ int line0 = Some storage
             /\ Forall (Setup.rejected_choice int) skipped
    | (Setup.Failed e, rest) =>
        e = Setup.EOFError /\ rest = []
        /\ Forall (Setup.rejected_choice int) (line :: inputs)
    | (Setup.Exited _, _) => False
    end).
  { intros Hrej. destruct (Setup.get_storage_type int inputs) as [[s | code | e] rest];
      [| exact IH |].
    - destruct IH as (Hs & Hd & skipped & line0 & -> & Hint & Hall).
      split; [exact Hs |]. split; [exact Hd |].
      exists (line :: skipped), line0. repeat split; trivial. now constructor.
    - destruct IH as (-> & -> & Hall). repeat split. now constructor. }
  destruct (int line) as [storage |] eqn:Hint.
  - destruct (Setup.storage_dict storage) as [kind |] eqn:Hdict.
    + split.
      * unfold Setup.storage_dict in Hdict.
        destruct (Z.eqb_spec storage 1); [now left |].
        destruct (Z.eqb_spec storage 2); [now right | discriminate].
      * split; [congruence |]. exists [], line. repeat split; trivial.
    + apply Hskip. unfold Setup.rejected_choice. now rewrite Hint.
  - apply Hskip. unfold Setup.rejected_choice. now rewrite Hint.
Qed.

(** X16.  [get_name] returns the first line that is not empty and holds
    no space; every line before it is asked again for, and the lines
    after it are left on the console.  It never exits, and fails only
    when the console ends before such a line. *)
Theorem get_name_first_valid inputs :
  match Setup.get_name inputs with
  | (Setup.Returned name, rest) =>
      name <> EmptyString
      /\ Str.contains " " name = false
      /\ exists skipped,
           inputs = skipped ++ name :: rest
           /\ Forall Setup.rejected_name skipped
  | (Setup.Failed e, rest) =>
      e = Setup.EOFError /\ rest = [] /\ Forall Setup.rejected_name inputs
  | (Setup.Exited _, _) => False
  end.
Proof.
  induction inputs as [| line inputs IH]; simpl; [repeat split; constructor |].
  assert (Hskip : Setup.rejected_name line ->
    match Setup.get_name inputs with
    | (Setup.Returned name, rest) =>
        name <> EmptyString
        /\ Str.contains " " name = false
        /\ exists skipped,
             line :: inputs = skipped ++ name :: rest
             /\ Forall Setup.rejected_name skipped
    | (Setup.Failed e, rest) =>
        e = Setup.EOFError /\ rest = [] /\ Forall Setup.rejected_name (line :: inputs)
    | (Setup.Exited _, _) => False
    end).
  { intros Hrej. destruct (Setup.get_name inputs) as [[s | code | e] rest];
      [| exact IH |].
    - destruct IH as (Hs & Hd & skipped & -> & Hall).
      split; [exact Hs |]. split; [exact Hd |].
      exists (line :: skipped). split; [reflexivity | now constructor].
    - destruct IH as (-> & -> & Hall). repeat split. now constructor. }
  destruct (Str.contains " " line) eqn:Hspace.
  - apply Hskip. now right.
  - destruct line as [| a line]; [apply Hskip; now left |].
    cbn [String.length Nat.eqb]. split; [discriminate |]. split; [exact Hspace |].
    exists []. split; [reflexivity | constructor].
Qed.

(** ** The config file *)

Section ConfigFacts.

Variable Data : Type.
Implicit Types (config : Setup.Config Data) (data : Data) (name other : string).

Lemma lookup_assign_same name data config :
  Setup.lookup name (Setup.assign name data config) = Some data.
Proof.
  induction config as [| [k v] config IH]; simpl.
  - now rewrite String.eqb_refl.
  - destruct (String.eqb k name) eqn:Hk; simpl; now rewrite Hk.
Qed.

Lemma lookup_assign_other name other data config :
  other <> name ->
  Setup.lookup other (Setup.assign name data config) = Setup.lookup other config.
Proof.
  intros Hne. induction config as [| [k v] config IH]; simpl.
  - apply not_eq_sym in Hne. apply String.eqb_neq in Hne. now rewrite Hne.
  - destruct (String.eqb_spec k name) as [-> | Hk]; simpl.
    + apply not_eq_sym in Hne. apply String.eqb_neq in Hne. now rewrite Hne.
    + now rewrite IH.
Qed.

Lemma lookup_pop_other name other config :
  other <> name ->
  Setup.lookup other (Setup.pop name config) = Setup.lookup other config.
Proof.
  intros Hne. induction config as [| [k v] config IH]; simpl; [reflexivity |].
  destruct (String.eqb_spec k name) as [-> | Hk]; simpl.
  - apply not_eq_sym in Hne. apply String.eqb_neq in Hne. now rewrite Hne.
  - now rewrite IH.
Qed.

Lemma lookup_absent name config :
  ~ In name (map fst config) -> Setup.lookup name config = None.
Proof.
  induction config as [| [k v] config IH]; simpl; [reflexivity |].
  intros Hnot. destruct (String.eqb_spec k name) as [-> | Hk].
  - exfalso. apply Hnot. now left.
  - apply IH. intros Hin. apply Hnot. now right.
Qed.

Lemma lookup_pop_same name config :
  Setup.well_formed config -> Setup.lookup name (Setup.pop name config) = None.
Proof.
  unfold Setup.well_formed.
  induction config as [| [k v] config IH]; simpl; [reflexivity |].
  intros Hwf. apply NoDup_cons_iff in Hwf as [Hk Hwf].
  destruct (String.eqb_spec k name) as [-> | Hne]; simpl.
  - now apply lookup_absent.
  - apply String.eqb_neq in Hne. rewrite Hne. now apply IH.
Qed.

Lemma keys_assign name data config :
  forall k, In k (map fst (Setup.assign name data config)) ->
            k = name \/ In k (map fst config).
Proof.
  induction config as [| [k0 v] config IH]; simpl; intros k Hin.
  - destruct Hin as [<- | []]. now left.
  - destruct (String.eqb k0 name); simpl in Hin.
    + destruct Hin as [<- | Hin]; auto.
    + destruct Hin as [<- | Hin]; auto. destruct (IH k Hin); auto.
Qed.

Lemma well_formed_assign name data config :
  Setup.well_formed config -> Setup.well_formed (Setup.assign name data config).
Proof.
  unfold Setup.well_formed.
  induction config as [| [k v] config IH]; simpl; intros Hwf.
  - constructor; [intros [] | constructor].
  - apply NoDup_cons_iff in Hwf as [Hk Hwf].
    destruct (String.eqb_spec k name) as [-> | Hne]; simpl.
    + now constructor.
    + constructor; [| now apply IH].
      intros Hin. apply keys_assign in Hin as [-> | Hin]; [congruence | contradiction].
Qed.

Lemma keys_pop name config :
  forall k, In k (map fst (Setup.pop name config)) -> In k (map fst config).
Proof.
  induction config as [| [k0 v] config IH]; simpl; intros k Hin; [contradiction |].
  destruct (String.eqb k0 name); simpl in Hin; [now right |].
  destruct Hin as [<- | Hin]; auto.
Qed.

Lemma well_formed_pop name config :
  Setup.well_formed config -> Setup.well_formed (Setup.pop name config).
Proof.
  unfold Setup.well_formed.
  induction config as [| [k v] config IH]; simpl; intros Hwf; [constructor |].
  apply NoDup_cons_iff in Hwf as [Hk Hwf].
  destruct (String.eqb k name); simpl; [exact Hwf |].
  constructor; [| now apply IH]. intros Hin. apply keys_pop in Hin. contradiction.
Qed.

(** X17.  [save_config] without [remove] either writes a dictionary in
    which the name holds the new data and every other name holds what it
    held before, or exits with code 0 before writing: it exits exactly
    when the name exists already and the user declines to overwrite it. *)
Theorem save_config_stores file confirm name data :
  match Setup.save_config file confirm name data false with
  | Setup.Returned written =>
      Setup.lookup name written = Some data
      /\ (forall other, other <> name ->
            Setup.lookup other written
            = Setup.lookup other (Setup.load_existing_config file))
      /\ (Setup.well_formed (Setup.load_existing_config file) ->
          Setup.well_formed written)
      /\ (Setup.has name (Setup.load_existing_config file) = true -> confirm = true)
  | Setup.Exited code =>
      code = 0
      /\ Setup.has name (Setup.load_existing_config file) = true
      /\ confirm = false
  | Setup.Failed _ => False
  end.
Proof.
  unfold Setup.save_config. cbn [andb].
  assert (Hstored : forall config,
    Setup.lookup name (Setup.assign name data config) = Some data
    /\ (forall other, other <> name ->
          Setup.lookup other (Setup.assign name data config)
          = Setup.lookup other config)
    /\ (Setup.well_formed config -> Setup.well_formed (Setup.assign name data config))).
  { intros config. split; [apply lookup_assign_same |].
    split; [intros other Hne; now apply lookup_assign_other |].
    apply well_formed_assign. }
  destruct (Setup.has name (Setup.load_existing_config file)) eqn:Hhas.
  - destruct confirm; cbn [negb]; [| auto].
    destruct (Hstored (Setup.load_existing_config file)) as (H1 & H2 & H3). auto.
  - destruct (Hstored (Setup.load_existing_config file)) as (H1 & H2 & H3).
    repeat split; trivial. discriminate.
Qed.

(** X18.  [save_config] with [remove] never asks and never exits.  When
    the name exists it is gone from the dictionary written and every
    other name holds what it held before.  When the name does not exist
    nothing is removed: the name is created with the data passed. *)
Theorem save_config_removes file confirm name data :
  exists written,
    Setup.save_config file confirm name data true = Setup.Returned written
    /\ (forall other, other <> name ->
          Setup.lookup other written
          = Setup.lookup other (Setup.load_existing_config file))
    /\ (Setup.has name (Setup.load_existing_config file) = true ->
        Setup.well_formed (Setup.load_existing_config file) ->
        Setup.lookup name written = None)
    /\ (Setup.has name (Setup.load_existing_config file) = false ->
        Setup.lookup name written = Some data).
Proof.
  unfold Setup.save_config. cbn [andb].
  destruct (Setup.has name (Setup.load_existing_config file)) eqn:Hhas.
  - eexists. split; [reflexivity |].
    split; [intros other Hne; now apply lookup_pop_other |].
    split; [intros _ Hwf; now apply lookup_pop_same | discriminate].
  - eexists. split; [reflexivity |].
    split; [intros other Hne; now apply lookup_assign_other |].
    split; [discriminate | intros _; apply lookup_assign_same].
Qed.


(** X19.  Renaming an instance the way [edit_instance] does it, removing
    the old name and then saving under the new one, leaves a dictionary
    without the old name, with the new name holding the new data, and
    with every other name unchanged. *)
Theorem rename_moves_instance config confirm1 confirm2 selected name data empty
    removed written :
  Setup.well_formed config ->
  Setup.has selected config = true ->
  name <> selected ->
  Setup.save_config (Some config) confirm1 selected empty true
    = Setup.Returned removed ->
  Setup.save_config (Some removed) confirm2 name data false
    = Setup.Returned written ->
  Setup.lookup selected written = None
  /\ Setup.lookup name written = Some data
  /\ (forall other, other <> name -> other <> selected ->
        Setup.lookup other written = Setup.lookup other config)
  /\ Setup.well_formed written.
Proof.
  intros Hwf Hhas Hne Hremove Hsave.
  unfold Setup.save_config in Hremove. cbn in Hremove. rewrite Hhas in Hremove.
  injection Hremove as <-.
  unfold Setup.save_config in Hsave. cbn in Hsave.
  assert (Hwritten : written = Setup.assign name data (Setup.pop selected config)).
  { destruct (Setup.has name (Setup.pop selected config)); [| congruence].
    destruct confirm2; cbn in Hsave; congruence. }
  subst written. split; [| split; [| split]].
  - rewrite lookup_assign_other by congruence. now apply lookup_pop_same.
  - apply lookup_assign_same.
  - intros other Hn Hs. rewrite lookup_assign_other by exact Hn.
    now apply lookup_pop_other.
  - apply well_formed_assign. now apply well_formed_pop.
Qed.


End ConfigFacts.

Lemma save_config_removes_witness :
  exists written,
    Setup.save_config (Some [("red", 1%nat); ("blue", 2%nat)]%string) false
      "red" 0%nat true = Setup.Returned written
    /\ Setup.lookup "red" written = None
    /\ Setup.lookup "blue" written = Some 2%nat.
Proof.
  destruct (save_config_removes nat (Some [("red", 1%nat); ("blue", 2%nat)]%string)
              false "red" 0%nat) as (written & Hrun & Hothers & Hgone & _).
  exists written. split; [exact Hrun |]. split.
  - apply Hgone; [reflexivity |].
    unfold Setup.well_formed. simpl. repeat constructor; simpl; intuition discriminate.
  - rewrite (Hothers "blue"%string); [reflexivity | discriminate].
Defined.

Lemma rename_moves_instance_witness :
  Setup.lookup "red" [("blue", 2%nat); ("green", 7%nat)]%string = None
  /\ Setup.lookup "green" [("blue", 2%nat); ("green", 7%nat)]%string = Some 7%nat
  /\ (forall other, other <> "green"%string -> other <> "red"%string ->
        Setup.lookup other [("blue", 2%nat); ("green", 7%nat)]%string
        = Setup.lookup other [("red", 1%nat); ("blue", 2%nat)]%string)
  /\ Setup.well_formed [("blue", 2%nat); ("green", 7%nat)]%string.
Proof.
  apply (rename_moves_instance nat [("red", 1%nat); ("blue", 2%nat)]%string
           false false "red" "green" 7%nat 0%nat [("blue", 2%nat)]%string).
  - unfold Setup.well_formed. simpl. repeat constructor; simpl; intuition discriminate.
  - reflexivity.
  - discriminate.
  - reflexivity.
  - reflexivity.
Defined.

(** X20.  [remove_instance] on an instance stored in MongoDB fails on the
    name [Mongo], which the module does not bind: nothing is deleted and
    the config file keeps the instance.  On any other instance it hands
    the data path to [safe_delete] and writes a config without the
    instance, every other instance unchanged. *)
Theorem remove_instance_outcomes (Data : Type) (storage_type data_path : Data -> option string)
    (no_data : Data) file confirm selected instance_data :
  (storage_type instance_data = Some "MongoDB"%string ->
   Setup.remove_instance storage_type data_path no_data file confirm selected
     instance_data
   = Setup.mkRemoval (Setup.Failed (Setup.NameError "Mongo")) file [])
  /\ (forall kind pth,
        storage_type instance_data = Some kind ->
        kind <> "MongoDB"%string ->
        data_path instance_data = Some pth ->
        exists written,
          Setup.remove_instance storage_type data_path no_data file confirm selected
            instance_data
          = Setup.mkRemoval (Setup.Returned tt) (Some written) [pth]
          /\ (forall other, other <> selected ->
                Setup.lookup other written
                = Setup.lookup other (Setup.load_existing_config file))
          /\ (Setup.has selected (Setup.load_existing_config file) = true ->
              Setup.well_formed (Setup.load_existing_config file) ->
              Setup.lookup selected written = None)).
Proof.
  unfold Setup.remove_instance. split.
  - now intros ->.
  - intros kind pth -> Hkind ->. apply String.eqb_neq in Hkind. rewrite Hkind.
    unfold Setup.save_config. cbn [andb].
    destruct (Setup.has selected (Setup.load_existing_config file)) eqn:Hhas.
    + eexists. split; [reflexivity |].
      split; [intros other Hne; now apply lookup_pop_other |].
      intros _ Hwf. now apply lookup_pop_same.
    + eexists. split; [reflexivity |].
      split; [intros other Hne; now apply lookup_assign_other | discriminate].
Qed.

Lemma remove_instance_outcomes_witness :
  Setup.remove_instance (fun d : string * string => Some (fst d))
    (fun d => Some (snd d)) (EmptyString, EmptyString)
    (Some [("red", ("MongoDB", "/data/red"))]%string) true "red"
    ("MongoDB", "/data/red")%string
  = Setup.mkRemoval (Setup.Failed (Setup.NameError "Mongo"))
      (Some [("red", ("MongoDB", "/data/red"))]%string) [].
Proof.
  apply (proj1 (remove_instance_outcomes (string * string)
                  (fun d => Some (fst d)) (fun d => Some (snd d))
                  (EmptyString, EmptyString)
                  (Some [("red", ("MongoDB", "/data/red"))]%string) true "red"
                  ("MongoDB", "/data/red")%string)).
  reflexivity.
Defined.

(** * The checks of the bank settings *)

(** X21.  Both checks of the bank settings pass for the bot owner.  For
    anybody else they pass only while the bank is per-server, in a guild
    channel, and for the guild owner or a holder of the permission (or
    admin role) the check names.  While the bank is global their
    predicates end without a value for anybody but the bot owner, so
    guild owners and administrators are refused too. *)
Theorem bank_checks_pass_when i :
  Bank.passes (Bank.guildowner_pred i)
  = (Bank.is_owner i
     || (negb (Bank.is_global i) && Bank.in_guild_channel i
         && (Bank.is_guild_owner i || Bank.administrator i)))%bool
  /\ Bank.passes (Bank.admin_pred i)
     = (Bank.is_owner i
        || (negb (Bank.is_global i) && Bank.in_guild_channel i
            && (Bank.has_admin_role i || Bank.is_guild_owner i || Bank.manage_guild i)))%bool
  /\ (Bank.is_owner i = false -> Bank.is_global i = true ->
      Bank.guildowner_pred i = None /\ Bank.admin_pred i = None).
Proof.
  unfold Bank.guildowner_pred, Bank.admin_pred.
  destruct i as [[] [] [] [] [] [] []]; cbn; repeat split; congruence.
Qed.

Lemma bank_checks_pass_when_witness :
  Bank.guildowner_pred (Bank.mkInvocation false true true true true true true) = None
  /\ Bank.admin_pred (Bank.mkInvocation false true true true true true true) = None.
Proof.
  apply (proj2 (proj2 (bank_checks_pass_when
                         (Bank.mkInvocation false true true true true true true))));
    reflexivity.
Defined.

Lemma save_config_stores_witness :
  Setup.lookup "red" [("red", 5%nat)]%string = Some 5%nat
  /\ Setup.well_formed [("red", 5%nat)]%string.
Proof.
  pose proof (save_config_stores nat (Some [("red", 1%nat)]%string) true "red" 5%nat)
    as (Hstored & _ & Hwf & _).
  split; [exact Hstored |]. apply Hwf.
  unfold Setup.well_formed. simpl. repeat constructor; simpl; intuition.
Defined.

(** * Patterns and substrings *)

Lemma prefix_spec (p s : string) :
  String.prefix p s = true <-> exists rest, s = (p ++ rest)%string.
Proof.
  revert s. induction p as [| a p IH]; intros s.
  - split; [intros _; now exists s | intros _; now destruct s].
  - destruct s as [| b s]; [split; [discriminate | intros [rest H]; discriminate] |].
    rewrite prefix_cons. destruct (ascii_dec a b) as [<- | Hne].
    + rewrite IH. split; intros [rest H]; exists rest.
      * simpl. now rewrite H.
      * simpl in H. now injection H.
    + split; [discriminate |]. intros [rest H]. simpl in H. injection H as H _.
      congruence.
Qed.

Lemma endswith_spec (s q : string) :
  Str.endswith s q = true <-> exists front, s = (front ++ q)%string.
Proof.
  induction s as [| a s IH].
  - cbn [Str.endswith]. rewrite orb_false_r. split.
    + intros H. apply String.eqb_eq in H. exists EmptyString. now rewrite <- H.
    + intros [front H]. destruct front; simpl in H; [| discriminate].
      rewrite <- H. reflexivity.
  - cbn [Str.endswith]. split.
    + intros H. apply orb_prop in H as [H | H].
      * apply String.eqb_eq in H. exists EmptyString. now rewrite <- H.
      * apply IH in H as [front ->]. now exists (String a front).
    + intros [front H]. destruct front as [| b front]; simpl in H.
      * rewrite <- H, String.eqb_refl. reflexivity.
      * injection H as <- ->. apply orb_true_iff. right. apply IH. now exists front.
Qed.

Lemma contains_spec (sub s : string) :
  Str.contains sub s = true <-> exists front back, s = (front ++ sub ++ back)%string.
Proof.
  induction s as [| a s IH].
  - cbn [Str.contains]. rewrite orb_false_r, prefix_spec. split.
    + intros [rest H]. now exists EmptyString, rest.
    + intros (front & back & H). destruct front; [| discriminate]. now exists back.
  - cbn [Str.contains]. rewrite orb_true_iff, prefix_spec, IH. split.
    + intros [[rest H] | (front & back & ->)].
      * now exists EmptyString, rest.
      * now exists (String a front), back.
    + intros (front & back & H). destruct front as [| b front]; simpl in H.
      * left. now exists back.
      * injection H as <- ->. right. now exists front, back.
Qed.

(** X22.  The check of [text] accepts a message exactly when the text
    occurs in its content as a contiguous part, or the message is the
    command message; the empty text therefore accepts every message. *)
Theorem text_check_accepts ctx text m :
  (text_check ctx text m = true
   <-> (exists front back, content m = (front ++ text ++ back)%string)
       \/ message_eq m (ctx_message ctx) = true)
  /\ text_check ctx EmptyString m = true.
Proof.
  split.
  - unfold text_check. rewrite <- contains_spec.
    destruct (Str.contains text (content m)); [intuition |].
    destruct (message_eq m (ctx_message ctx)); intuition discriminate.
  - unfold text_check.
    assert (H : Str.contains EmptyString (content m) = true)
      by (apply contains_spec; now exists EmptyString, (content m)).
    now rewrite H.
Qed.

(** X23.  [self] reads its pattern as a regular expression exactly when
    the pattern has the form r(body); it then compiles the group (body)
    and fails when that does not compile.  Any other non-empty pattern is
    a substring test, and no pattern or the empty pattern accepts every
    content. *)
Theorem self_pattern_forms w (p : string) :
  (use_re (Some p) = true <-> exists body, p = ("r(" ++ body ++ ")")%string)
  /\ (forall body, p = ("r(" ++ body ++ ")")%string ->
        content_match w (Some p)
        = match re_compile w ("(" ++ body ++ ")")%string with
          | Some matcher => ret matcher
          | None => raise ReError
          end)
  /\ (use_re (Some p) = false -> p <> EmptyString ->
      content_match w (Some p) = ret (fun c => Str.contains p c))
  /\ content_match w None = ret (fun _ => true)
  /\ content_match w (Some EmptyString) = ret (fun _ => true).
Proof.
  assert (Hform : use_re (Some p) = true <-> exists body, p = ("r(" ++ body ++ ")")%string).
  { unfold use_re, Str.startswith. split.
    - intros H. apply andb_prop in H as [H Hend]. apply andb_prop in H as [_ Hstart].
      apply prefix_spec in Hstart as [rest ->].
      cbn [append Str.endswith String.eqb Ascii.eqb Bool.eqb] in Hend.
      cbn in Hend.
      destruct rest as [| a rest]; [discriminate Hend |].
      assert (Hrest : Str.endswith (String a rest) ")" = true).
      { cbn [Str.endswith]. exact Hend. }
      apply endswith_spec in Hrest as [body Hbody]. exists body.
      simpl. now rewrite Hbody.
    - intros [body ->]. apply andb_true_intro. split; [apply andb_true_intro; split |].
      + reflexivity.
      + apply prefix_spec. now exists (body ++ ")")%string.
      + apply endswith_spec. exists ("r(" ++ body)%string.
        reflexivity. }
  split; [exact Hform |]. split; [| split; [| split; reflexivity]].
  - intros body Hp. unfold content_match.
    rewrite (proj2 Hform (ex_intro _ body Hp)). now rewrite Hp.
  - intros Hre Hne. unfold content_match. rewrite Hre.
    destruct p; [congruence | reflexivity].
Qed.

Lemma self_pattern_forms_witness :
  content_match (Sample.env Sample.red [] []) (Some "r(ab)"%string) = raise ReError
  /\ content_match (Sample.env Sample.red [] []) (Some "ab"%string)
     = ret (fun c => Str.contains "ab" c).
Proof.
  split.
  - exact (proj1 (proj2 (self_pattern_forms (Sample.env Sample.red [] []) "r(ab)"))
             "ab"%string eq_refl).
  - apply (proj1 (proj2 (proj2 (self_pattern_forms (Sample.env Sample.red [] []) "ab"))));
      [reflexivity | discriminate].
Defined.

Lemma text_check_accepts_witness :
  text_check Sample.ctx "hre" Sample.day3 = true.
Proof.
  apply (proj1 (text_check_accepts Sample.ctx "hre" Sample.day3)).
  left. exists "x t"%string, "e"%string. reflexivity.
Defined.

(** * What every subcommand hands over *)

Lemma handed_batch_collected w ctx c number batch :
  handed_over (trace (run_bounded w ctx c number)) batch ->
  exists chk,
    result (command_check w ctx c) = Done chk
    /\ batch = handed_batch w ctx c
                 (fst (get_messages_for_deletion (channel w) ctx number chk
                         (Some 1000%nat) (Some (ctx_message ctx)) None)).
Proof.
  intros Hover.
  assert (Hstep : exists e, In e (trace (run_bounded w ctx c number))
                            /\ is_deletion e = true
                            /\ (e = MassPurge batch \/ e = SlowDeletion batch)).
  { destruct Hover as [H | H]; eexists; (split; [exact H |]); split; auto. }
  destruct Hstep as (e & He & Hd & Hbatch).
  destruct (run_bounded_steps w ctx c number e He (or_introl Hd))
    as (chk & Hchk & [Hlog | Hdel] & _);
    [rewrite Hlog in Hd; discriminate Hd |].
  exists chk. split; [exact Hchk |].
  destruct (uses_bulk w ctx c), Hbatch as [-> | ->]; congruence.
Qed.

Lemma handed_batch_eligible w ctx c number batch m chk :
  (forall p, c <> CleanupSelf p) ->
  handed_over (trace (run_bounded w ctx c number)) batch ->
  In m batch ->
  (forall chk', result (command_check w ctx c) = Done chk' -> chk' = chk) ->
  chk m = true /\ age_days ctx m < 14.
Proof.
  intros Hself Hover Hin Hchk.
  destruct (handed_batch_collected w ctx c number batch Hover) as (chk' & Hres & ->).
  rewrite (Hchk chk' Hres) in Hin.
  assert (Hcollected : In m (fst (get_messages_for_deletion (channel w) ctx number chk
                                    (Some 1000%nat) (Some (ctx_message ctx)) None))).
  { destruct c; try exact Hin. exfalso. now apply (Hself match_pattern). }
  pose proof (get_messages_for_deletion_eligible (channel w) ctx number chk
                (Some 1000%nat) (Some (ctx_message ctx)) None) as Hall.
  rewrite Forall_forall in Hall. exact (Hall m Hcollected).
Qed.

Lemma after_found w ctx id cursor :
  user_bot (bot_user w) = true ->
  get_message w id = Done (Some cursor) ->
  after w ctx id
  = (GetMessage id
       :: snd (get_messages_for_deletion (channel w) ctx 0 (fun _ => true)
                 None None (Some cursor))
       ++ [LogInfo (ctx_author ctx)
             (len (fst (get_messages_for_deletion (channel w) ctx 0 (fun _ => true)
                          None None (Some cursor))));
           MassPurge (fst (get_messages_for_deletion (channel w) ctx 0 (fun _ => true)
                             None None (Some cursor)))],
     Done tt).
Proof.
  intros Hbot Hfound. unfold after. rewrite Hbot, Hfound. cbn.
  rewrite collect_messages_run. cbn.
  destruct (get_messages_for_deletion (channel w) ctx 0 (fun _ => true)
              None None (Some cursor)) as [collected tr].
  reflexivity.
Qed.

Lemma after_batch w ctx id batch :
  handed_over (trace (after w ctx id)) batch ->
  exists cursor,
    get_message w id = Done (Some cursor)
    /\ batch = fst (get_messages_for_deletion (channel w) ctx 0 (fun _ => true)
                      None None (Some cursor)).
Proof.
  unfold handed_over. destruct (user_bot (bot_user w)) eqn:Hbot.
  - destruct (get_message w id) as [[cursor |] | e |] eqn:Hfound.
    + rewrite (after_found w ctx id cursor Hbot Hfound).
      pose proof (get_messages_for_deletion_steps (channel w) ctx 0 (fun _ => true)
                    None None (Some cursor)) as Hsteps.
      set (run := get_messages_for_deletion (channel w) ctx 0 (fun _ => true)
                    None None (Some cursor)) in *.
      rewrite Forall_forall in Hsteps. cbn [trace fst].
      intros Hover. exists cursor. split; [reflexivity |].
      assert (Hstep : forall e, is_deletion e = true ->
                In e (GetMessage id
                        :: snd run
                           ++ [LogInfo (ctx_author ctx) (len (fst run));
                               MassPurge (fst run)]) ->
                e = MassPurge (fst run)).
      { intros e Hd [<- | Hin]; [discriminate Hd |].
        apply in_app_or in Hin as [Hin | Hin].
        - apply Hsteps, scan_step_not_deletion in Hin. congruence.
        - destruct Hin as [<- | [<- | []]]; [discriminate Hd | reflexivity]. }
      destruct Hover as [Hin | Hin]; apply Hstep in Hin; try reflexivity;
        [now injection Hin | discriminate Hin].
    + unfold after. rewrite Hbot, Hfound. cbn.
      intros [[H | [H | []]] | [H | [H | []]]]; discriminate H.
    + unfold after. rewrite Hbot, Hfound. cbn.
      intros [[H | []] | [H | []]]; discriminate H.
    + unfold after. rewrite Hbot, Hfound. cbn.
      intros [[H | []] | [H | []]]; discriminate H.
  - unfold after. rewrite Hbot. cbn. intros [[H | []] | [H | []]]; discriminate H.
Qed.

(** C2, amended.  Every message the collector returns passes the check and
    is younger than fourteen days.  Every message of a batch that [text],
    [user], [messages], [bot] or [after] hands to the deletion executor
    passes the check of that subcommand (the one of [messages] and
    [after] accepts everything) and is younger than fourteen days.  Every
    message of a batch that [self] hands to the deletion executor is
    younger than fourteen days, and passes the check of [self] unless it
    is the command message, which is added only when its author is the
    bot. *)
Theorem batch_is_checked_and_recent :
  (forall ch ctx number check limit before after m,
      In m (fst (get_messages_for_deletion ch ctx number check limit before after)) ->
      check m = true /\ age_days ctx m < 14)
  /\ (forall w ctx number match_pattern batch m,
        handed_over (trace (cleanup_self w ctx number match_pattern)) batch ->
        In m batch ->
        age_days ctx m < 14
        /\ ((m = ctx_message ctx /\ user_eq (ctx_author ctx) (bot_user w) = true)
            \/ exists matches,
                 content_match w match_pattern = ret matches
                 /\ self_check w matches m = true))
  /\ (forall w ctx t number batch m,
        handed_over (trace (text w ctx t number)) batch ->
        In m batch ->
        text_check ctx t m = true /\ age_days ctx m < 14)
  /\ (forall w ctx u number batch m,
        handed_over (trace (user w ctx u number)) batch ->
        In m batch ->
        exists bound,
          resolve_user w u = ret bound
          /\ user_check ctx (snd bound) m = true /\ age_days ctx m < 14)
  /\ (forall w ctx number batch m,
        handed_over (trace (messages w ctx number)) batch ->
        In m batch ->
        age_days ctx m < 14)
  /\ (forall w ctx number batch m,
        handed_over (trace (cleanup_bot w ctx number)) batch ->
        In m batch ->
        bot_check w ctx (command_prefixes w) m = true /\ age_days ctx m < 14)
  /\ (forall w ctx message_id batch m,
        handed_over (trace (after w ctx message_id)) batch ->
        In m batch ->
        age_days ctx m < 14).
Proof.
  split; [| split; [| split; [| split; [| split; [| split]]]]].
  - intros ch ctx number check limit before after m Hin.
    pose proof (get_messages_for_deletion_eligible ch ctx number check limit
                  before after) as Hall.
    rewrite Forall_forall in Hall. exact (Hall m Hin).
  - intros w ctx number p batch m Hover Hin.
    assert (Hdel : exists e, In e (trace (self_pipeline w ctx number p))
                             /\ is_deletion e = true
                             /\ (e = MassPurge batch \/ e = SlowDeletion batch)).
    { destruct Hover as [H | H].
      - exists (MassPurge batch). split; [| split; [reflexivity | now left]].
        eapply confirmed_then_deletion; [exact H | reflexivity].
      - exists (SlowDeletion batch). split; [| split; [reflexivity | now right]].
        eapply confirmed_then_deletion; [exact H | reflexivity]. }
    destruct Hdel as (e & He & Hd & Hbatch).
    destruct (self_pipeline_deletion w ctx number p e He Hd) as (matches & Hm & Hshape).
    pose proof (get_messages_for_deletion_eligible (channel w) ctx number
                  (self_check w matches) (Some 1000%nat) (Some (ctx_message ctx)) None)
      as Hall.
    rewrite Forall_forall in Hall.
    assert (Hmem : In m (if user_eq (author (ctx_message ctx)) (bot_user w)
                         then fst (get_messages_for_deletion (channel w) ctx number
                                     (self_check w matches) (Some 1000%nat)
                                     (Some (ctx_message ctx)) None)
                              ++ [ctx_message ctx]
                         else fst (get_messages_for_deletion (channel w) ctx number
                                     (self_check w matches) (Some 1000%nat)
                                     (Some (ctx_message ctx)) None))).
    { simpl in Hshape.
      destruct Hshape as [-> | ->], Hbatch as [Heq | Heq];
        try discriminate Heq; injection Heq as <-; exact Hin. }
    unfold ctx_author.
    destruct (user_eq (author (ctx_message ctx)) (bot_user w)).
    + apply in_app_or in Hmem as [Hmem | [<- | []]].
      * destruct (Hall m Hmem) as [Hchk Hage]. split; [exact Hage |].
        right. now exists matches.
      * rewrite age_of_trigger. split; [lia | now left].
    + destruct (Hall m Hmem) as [Hchk Hage]. split; [exact Hage |].
      right. now exists matches.
  - intros w ctx t number batch m Hover Hin.
    apply (handed_batch_eligible w ctx (CleanupText t) number batch m); trivial.
    + discriminate.
    + intros chk' Hres. cbn in Hres. now injection Hres.
  - intros w ctx u number batch m Hover Hin.
    destruct (handed_batch_collected w ctx (CleanupUser u) number batch Hover)
      as (chk & Hres & _).
    cbn [command_check] in Hres.
    assert (Hbound : exists bound,
      resolve_user w u = ret bound /\ chk = user_check ctx (snd bound)).
    { unfold resolve_user in *. destruct (convert_member w u) as [member |].
      - rewrite bind_ret_l in Hres. cbn in Hres. injection Hres as <-. now eexists.
      - destruct (int_of_str w u) as [_id |]; [| discriminate Hres].
        rewrite bind_ret_l in Hres. cbn in Hres. injection Hres as <-. now eexists. }
    destruct Hbound as (bound & Hbound & ->). exists bound. split; [exact Hbound |].
    apply (handed_batch_eligible w ctx (CleanupUser u) number batch m); trivial.
    + discriminate.
    + intros chk' Hres'. cbn [command_check] in Hres'. rewrite Hbound, bind_ret_l in Hres'.
      cbn in Hres'. now injection Hres'.
  - intros w ctx number batch m Hover Hin.
    apply (handed_batch_eligible w ctx CleanupMessages number batch m (fun _ => true));
      trivial.
    + discriminate.
    + intros chk' Hres. cbn in Hres. now injection Hres.
  - intros w ctx number batch m Hover Hin.
    apply (handed_batch_eligible w ctx CleanupBot number batch m); trivial.
    + discriminate.
    + intros chk' Hres. cbn in Hres. now injection Hres.
  - intros w ctx id batch m Hover Hin.
    destruct (after_batch w ctx id batch Hover) as (cursor & _ & ->).
    pose proof (get_messages_for_deletion_eligible (channel w) ctx 0 (fun _ => true)
                  None None (Some cursor)) as Hall.
    rewrite Forall_forall in Hall. exact (proj2 (Hall m Hin)).
Qed.

Lemma batch_is_checked_and_recent_witness :
  (text_check Sample.ctx "x" Sample.day3 = true
   /\ age_days Sample.ctx Sample.day3 < 14)
  /\ age_days Sample.self_ctx Sample.self_trigger < 14
  /\ (text_check Sample.ctx "later" Sample.newest = true
      /\ age_days Sample.ctx Sample.newest < 14)
  /\ age_days Sample.ctx Sample.older < 14.
Proof.
  split; [| split; [| split]].
  - apply (proj1 batch_is_checked_and_recent Sample.aging Sample.ctx 10
             (text_check Sample.ctx "x") (Some 1000%nat) (Some Sample.trigger) None).
    vm_compute. right. left. reflexivity.
  - apply (proj1 (proj2 batch_is_checked_and_recent) (Sample.env Sample.selfbot [] [])
             Sample.self_ctx 1 (Some Sample.quoted) [Sample.self_trigger]
             Sample.self_trigger).
    + right. vm_compute. right. right. left. reflexivity.
    + left. reflexivity.
  - apply (proj1 (proj2 (proj2 batch_is_checked_and_recent))
             (Sample.env Sample.red Sample.recent []) Sample.ctx "later"%string 5
             [Sample.newest] Sample.newest).
    + left. vm_compute. do 5 right. left. reflexivity.
    + left. reflexivity.
  - apply (proj1 (proj2 (proj2 (proj2 (proj2 batch_is_checked_and_recent))))
             (Sample.env Sample.red Sample.recent []) Sample.ctx 5
             [Sample.newest; Sample.older] Sample.older).
    + left. vm_compute. do 5 right. left. reflexivity.
    + right. left. reflexivity.
Defined.
